(** * HyperRAM read/write example (main.c): model and verification

    A shallow embedding of [main.c].  The program is one linear procedure
    over the vendor SDK, so the model is a small state-and-halt monad over
    - the UART console (the sequence of texts printed by [printf]),
    - the two local byte arrays [tx_buf] and [rx_buf],
    - the SMIF/HyperRAM hardware, kept abstract behind the [Sdk] interface.

    Integers are [Z] with the wrap-around of their C width written out;
    bytes are [Z] in [0, 256). *)

From Stdlib Require Import ZArith Lia Ascii String.
From stdpp Require Import base list strings.

Local Open Scope Z_scope.

(** ** Fixed-width integers *)

Definition u8 (x : Z) : Z := x mod 2 ^ 8.
Definition u16 (x : Z) : Z := x mod 2 ^ 16.
Definition u32 (x : Z) : Z := x mod 2 ^ 32.

Definition is_u8 (x : Z) : Prop := 0 <= x < 2 ^ 8.

(** ** Macros of main.c *)

Definition TIMEOUT_MS : Z := 1000.
Definition SIZE_IN_BYTES : Z := 64.
Definition DUMMY_CYCLE_COUNT : Z := 14.
Definition BYTES_PER_LINE : Z := 8.
Definition TEST_SECTOR_NO : Z := 0.
Definition HB_SECTOR_SIZE : Z := 0x00040000.
Definition TEST_SECTOR_ADDRESS : Z := u32 (HB_SECTOR_SIZE * TEST_SECTOR_NO).
Definition LOOP_VALUE : Z := 20.

(** ** Console text *)

Definition CR : string := String "013"%char "".
Definition LF : string := String "010"%char "".
Definition ESC : string := String "027"%char "".

(** Digit of a [printf] conversion ([%u] uses the first ten, [%X] all). *)
Definition digit_char (d : Z) : ascii :=
  match d with
  | 0 => "0" | 1 => "1" | 2 => "2" | 3 => "3"
  | 4 => "4" | 5 => "5" | 6 => "6" | 7 => "7"
  | 8 => "8" | 9 => "9" | 10 => "A" | 11 => "B"
  | 12 => "C" | 13 => "D" | 14 => "E" | _ => "F"
  end%char.

(** Positional notation of [v], most significant digit first; [more] bounds
    the number of digits after the first one produced. *)
Fixpoint digits (base : Z) (more : nat) (v : Z) (acc : string) : string :=
  let acc := String (digit_char (v mod base)) acc in
  match more with
  | O => acc
  | S more => if v / base =? 0 then acc else digits base more (v / base) acc
  end.

(** [%u] on a 32-bit [unsigned int]: at most ten decimal digits. *)
Definition fmt_u (v : Z) : string := digits 10 9 (u32 v) "".

(** [%02X] on an argument promoted to a 32-bit int: upper-case hexadecimal,
    padded with zeros to a width of two. *)
Definition fmt_02X (v : Z) : string :=
  let s := digits 16 7 (u32 v) "" in
  if (String.length s <? 2)%nat then "0" +:+ s else s.

(** ** The vendor SDK, seen from main.c

    None of the SDK is part of this program.  Its calls are operations of an
    interface over an abstract hardware state [World]; each returns its
    result and the next hardware state.  The status constants come from the
    SDK headers and are parameters as well. *)

Inductive cy_en_smif_mode_t := CY_SMIF_NORMAL | CY_SMIF_MEMORY.

(** The SDK calls whose result main.c does not use. *)
Inductive sdk_proc :=
| Cy_GPIO_Pin_FastInit
| __enable_irq
| Cy_SMIF_Disable
| Cy_SMIF_SetMode (mode : cy_en_smif_mode_t)
| Cy_SMIF_SetDataSelect
| Cy_SMIF_Enable
| Cy_SMIF_DeviceTransfer_ClearMergeTimeout
| Cy_SMIF_CacheInvalidate
| Cy_SMIF_CacheDisable.

Class Sdk (World : Type) := {
  CY_RSLT_SUCCESS : Z;
  CY_SMIF_SUCCESS : Z;
  cybsp_init : World -> Z * World;
  cy_retarget_io_init_fc : World -> Z * World;
  (* timeout *)
  Cy_SMIF_Init : Z -> World -> Z * World;
  Cy_SMIF_Memslot_Init : World -> Z * World;
  (* address, number of 16-bit transfers, dummy cycles; the halfwords read *)
  Cy_SMIF_HyperBus_Read : Z -> Z -> Z -> World -> Z * list Z * World;
  (* address, number of 16-bit transfers, the halfwords to write, dummy cycles *)
  Cy_SMIF_HyperBus_Write : Z -> Z -> list Z -> Z -> World -> Z * World;
  (* loads through the memory-mapped window: byte offset from XIP_ADDRESS,
     number of bytes *)
  xip_load : Z -> Z -> World -> list Z * World;
  sdk_run : sdk_proc -> World -> World
}.

(** ** Byte buffers and 16-bit views

    The HyperBus calls take the byte arrays as [uint16_t*]; the core is
    little-endian. *)

Fixpoint u16s_of_bytes (bs : list Z) : list Z :=
  match bs with
  | lo :: hi :: bs => Z.lor lo (Z.shiftl hi 8) :: u16s_of_bytes bs
  | _ => []
  end.

Fixpoint bytes_of_u16s (ws : list Z) : list Z :=
  match ws with
  | [] => []
  | w :: ws => Z.land w 0xFF :: Z.land (Z.shiftr w 8) 0xFF :: bytes_of_u16s ws
  end.

(** [src] copied over the first bytes of [dst]; [None] when it does not fit. *)
Definition overwrite (dst src : list Z) : option (list Z) :=
  if decide (length src <= length dst)%nat
  then Some (src ++ drop (length src) dst)
  else None.

(** Result of [memcmp] on the first [n] bytes: zero when they agree, else
    the difference of the first two bytes that differ; [None] when a buffer
    is shorter than [n]. *)
Fixpoint memcmp_bytes (a b : list Z) (n : nat) {struct n} : option Z :=
  match n with
  | O => Some 0
  | S n =>
      match a, b with
      | x :: a, y :: b => if x =? y then memcmp_bytes a b n else Some (x - y)
      | _, _ => None
      end
  end.

(** ** Program state *)

Record state (World : Type) := mkState {
  console : list string;      (* texts printed so far, one per printf *)
  tx_buf : list Z;            (* uint8_t tx_buf[SIZE_IN_BYTES] *)
  rx_buf : list Z;            (* uint8_t rx_buf[SIZE_IN_BYTES] *)
  dummyCycles : Z;            (* smifMemConfigs[0]->hbdeviceCfg->dummyCycles *)
  hw : World
}.

Arguments mkState {World}.
Arguments console {World}.
Arguments tx_buf {World}.
Arguments rx_buf {World}.
Arguments dummyCycles {World}.
Arguments hw {World}.

(** ** Outcomes and the monad *)

Inductive outcome (World A : Type) :=
| Ret (a : A) (s : state World)   (* the statement completes *)
| Halt (s : state World)          (* stopped in CY_ASSERT(0) *)
| Spin (s : state World)          (* in the final for(;;) loop *)
| Undef                           (* access outside an array *)
| OutOfFuel.                      (* a loop did not finish within its bound *)

Arguments Ret {World A}.
Arguments Halt {World A}.
Arguments Spin {World A}.
Arguments Undef {World A}.
Arguments OutOfFuel {World A}.

Definition M (World A : Type) : Type := state World -> outcome World A.

#[export] Instance M_ret {World} : MRet (M World) :=
  fun A a s => Ret a s.

#[export] Instance M_bind {World} : MBind (M World) :=
  fun A B k m s =>
    match m s with
    | Ret a s' => k a s'
    | Halt s' => Halt s'
    | Spin s' => Spin s'
    | Undef => Undef
    | OutOfFuel => OutOfFuel
    end.

Section Program.

Context {World : Type} {sdk : Sdk World}.

Local Abbreviation state := (state World).
Local Abbreviation M := (M World).

Definition set_console (c : list string) (s : state) : state :=
  mkState c (tx_buf s) (rx_buf s) (dummyCycles s) (hw s).
Definition set_tx_buf (b : list Z) (s : state) : state :=
  mkState (console s) b (rx_buf s) (dummyCycles s) (hw s).
Definition set_rx_buf (b : list Z) (s : state) : state :=
  mkState (console s) (tx_buf s) b (dummyCycles s) (hw s).
Definition set_dummyCycles (d : Z) (s : state) : state :=
  mkState (console s) (tx_buf s) (rx_buf s) d (hw s).
Definition set_hw (w : World) (s : state) : state :=
  mkState (console s) (tx_buf s) (rx_buf s) (dummyCycles s) w.

(** The two arrays a [uint8_t*] of this program can point to. *)
Inductive bufptr := ptr_tx_buf | ptr_rx_buf.

Definition deref (p : bufptr) (s : state) : list Z :=
  match p with ptr_tx_buf => tx_buf s | ptr_rx_buf => rx_buf s end.

Definition assign (p : bufptr) (b : list Z) (s : state) : state :=
  match p with ptr_tx_buf => set_tx_buf b s | ptr_rx_buf => set_rx_buf b s end.

(** ** Library and SDK calls as statements *)

(** [printf] with the text already formatted. *)
Definition printf (text : string) : M unit :=
  fun s => Ret tt (set_console (console s ++ [text]) s).

(** Modelled from the spec: the [CY_ASSERT] macro is defined in the SDK
    headers, which are not among the sources.  By the specification a failed
    assertion is an unconditional breakpoint that stops the program for
    good; a true one does nothing. *)
Definition CY_ASSERT (x : Z) : M unit :=
  fun s => if x =? 0 then Halt s else Ret tt s.

Definition when (c : bool) (m : M unit) : M unit :=
  if c then m else mret tt.

(** An SDK call with a result, and one without. *)
Definition call {A} (f : World -> A * World) : M A :=
  fun s => let '(a, w) := f (hw s) in Ret a (set_hw w s).

Definition run (p : sdk_proc) : M unit :=
  fun s => Ret tt (set_hw (sdk_run p (hw s)) s).

Definition memset (p : bufptr) (c n : Z) : M unit :=
  fun s =>
    match overwrite (deref p s) (replicate (Z.to_nat n) (u8 c)) with
    | Some b => Ret tt (assign p b s)
    | None => Undef
    end.

Definition memcmp (p q : bufptr) (n : Z) : M Z :=
  fun s =>
    match memcmp_bytes (deref p s) (deref q s) (Z.to_nat n) with
    | Some r => Ret r s
    | None => Undef
    end.

(** [memcpy(p, (void* )(pHyperFlashBaseAddr + offset), n)]: [n] bytes loaded
    through the memory-mapped window, [offset] counted in elements of
    [CY_SMIF_FLASHDATA]. *)
Definition memcpy_xip (p : bufptr) (offset n : Z) : M unit :=
  fun s =>
    let '(bs, w) := xip_load offset n (hw s) in
    match overwrite (deref p s) (u8 <$> take (Z.to_nat n) bs) with
    | Some b => Ret tt (assign p b (set_hw w s))
    | None => Undef
    end.

(** [Cy_SMIF_HyperBus_Read(.., addr, count, (uint16_t* )p, dummy, ..)]: the
    driver stores [count] halfwords through the pointer. *)
Definition HyperBus_Read (addr count : Z) (p : bufptr) (dummy : Z) : M Z :=
  fun s =>
    let '(status, ws, w) := Cy_SMIF_HyperBus_Read addr count dummy (hw s) in
    match overwrite (deref p s) (bytes_of_u16s (take (Z.to_nat count) ws)) with
    | Some b => Ret status (assign p b (set_hw w s))
    | None => Undef
    end.

(** [Cy_SMIF_HyperBus_Write(.., addr, count, (uint16_t* )p, .., dummy, ..)]:
    the driver fetches [count] halfwords through the pointer. *)
Definition HyperBus_Write (addr count : Z) (p : bufptr) (dummy : Z) : M Z :=
  fun s =>
    if decide (2 * Z.to_nat count <= length (deref p s))%nat then
      let ws := u16s_of_bytes (take (2 * Z.to_nat count) (deref p s)) in
      let '(status, w) := Cy_SMIF_HyperBus_Write addr count ws dummy (hw s) in
      Ret status (set_hw w s)
    else Undef.

(** [buf[index]] read and written. *)
Definition load_u8 (p : bufptr) (index : Z) : M Z :=
  fun s =>
    match deref p s !! Z.to_nat index with
    | Some b => Ret b s
    | None => Undef
    end.

Definition store_u8 (p : bufptr) (index v : Z) : M unit :=
  fun s =>
    if decide (Z.to_nat index < length (deref p s))%nat
    then Ret tt (assign p (<[Z.to_nat index := v]> (deref p s)) s)
    else Undef.

(** [smifMemConfigs[0]->hbdeviceCfg->dummyCycles] read and written. *)
Definition load_dummyCycles : M Z :=
  fun s => Ret (dummyCycles s) s.

Definition store_dummyCycles (d : Z) : M unit :=
  fun s => Ret tt (set_dummyCycles d s).

(** [for (uint32_t index = start; index < bound; index++) body]. *)
Fixpoint for_u32 (fuel : nat) (index bound : Z) (body : Z -> M unit) : M unit :=
  fun s =>
    if index <? bound then
      match fuel with
      | O => OutOfFuel
      | S fuel => (body index;; for_u32 fuel (u32 (index + 1)) bound body) s
      end
    else Ret tt s.

(** ** The functions of main.c *)

Definition executed_api (data : Z) : Z :=
  let data := u8 (data + 1) in
  data.

Definition print_array (message : string) (buf : bufptr) (size : Z) : M unit :=
  printf (LF +:+ CR +:+ message +:+ " (" +:+ fmt_u size +:+ " bytes):" +:+ LF +:+ CR);;
  printf ("-------------------------" +:+ CR +:+ LF);;
  for_u32 (Z.to_nat size) 0 size (fun index =>
    b ← load_u8 buf index;
    printf ("0x" +:+ fmt_02X b +:+ " ");;
    when (0 =? u32 (index + 1) mod BYTES_PER_LINE)
      (printf (CR +:+ LF))).

(** main is cut into consecutive steps, each fallible call opening a step
    of its own.  Lines 120-126. *)
Definition main_board_init : M unit :=
  result ← call cybsp_init;
  when (negb (result =? CY_RSLT_SUCCESS))
    (CY_ASSERT 0).

(** main, line 128. *)
Definition main_gpio : M unit :=
  run Cy_GPIO_Pin_FastInit.

(** main, lines 131-138. *)
Definition main_uart_init : M unit :=
  result ← call cy_retarget_io_init_fc;
  when (negb (result =? CY_RSLT_SUCCESS))
    (CY_ASSERT 0).

Definition clear_screen_text : string :=
  ESC +:+ "[2J" +:+ ESC +:+ "[;H".

Definition banner_text : string :=
  "****************** HyperRAM Read and Write ****************** "
  +:+ CR +:+ LF +:+ LF.

(** main, lines 141-149. *)
Definition main_banner : M unit :=
  printf clear_screen_text;;
  printf banner_text;;
  run __enable_irq;;
  run Cy_SMIF_Disable.

Definition smif_init_fail_text : string :=
  CR +:+ LF +:+ "Cy_SMIF_Init - Fail " +:+ LF +:+ CR.

(** main, lines 151-157. *)
Definition main_smif_init : M unit :=
  smif_status ← call (Cy_SMIF_Init TIMEOUT_MS);
  when (negb (smif_status =? CY_SMIF_SUCCESS))
    (printf smif_init_fail_text;;
     CY_ASSERT 0).

(** main, lines 159-163. *)
Definition main_smif_enable : M unit :=
  run (Cy_SMIF_SetMode CY_SMIF_NORMAL);;
  run Cy_SMIF_SetDataSelect;;
  run Cy_SMIF_Enable;;
  store_dummyCycles DUMMY_CYCLE_COUNT.

Definition memslot_init_fail_text : string :=
  CR +:+ LF +:+ "Cy_SMIF_Memslot_Init - Fail " +:+ LF +:+ CR.

(** main, lines 165-171. *)
Definition main_memslot_init : M unit :=
  smif_status ← call Cy_SMIF_Memslot_Init;
  when (negb (smif_status =? CY_SMIF_SUCCESS))
    (printf memslot_init_fail_text;;
     CY_ASSERT 0).

(** main, line 173. *)
Definition main_normal_mode : M unit :=
  run (Cy_SMIF_SetMode CY_SMIF_NORMAL).

(** main, lines 175, 229 and 273: [memset(rx_buf, 0, SIZE_IN_BYTES)]. *)
Definition main_clear_rx : M unit :=
  memset ptr_rx_buf 0 SIZE_IN_BYTES.

Definition separator : string :=
  CR +:+ LF +:+ "=============================================" +:+ CR +:+ LF.

Definition read_before_write_fail_text : string :=
  CR +:+ LF +:+ "1. Reading Data before write - Fail " +:+ LF +:+ CR.

(** main, lines 177-198. *)
Definition main_read_before_write : M unit :=
  dummy ← load_dummyCycles;
  smif_status ← HyperBus_Read TEST_SECTOR_ADDRESS 32 ptr_rx_buf dummy;
  when (negb (smif_status =? CY_SMIF_SUCCESS))
    (printf read_before_write_fail_text;;
     CY_ASSERT 0);;
  printf (CR +:+ LF +:+ "1. Reading Data before write - Success " +:+ LF +:+ CR);;
  print_array "Received Data before write" ptr_rx_buf SIZE_IN_BYTES;;
  printf separator.

(** main, lines 200-204. *)
Definition main_prepare_tx : M unit :=
  for_u32 (Z.to_nat SIZE_IN_BYTES) 1 SIZE_IN_BYTES (fun index =>
    store_u8 ptr_tx_buf index (u8 index)).

Definition write_fail_text : string :=
  CR +:+ LF +:+ "2. Writing data to memory - Fail " +:+ LF +:+ CR.

(** main, lines 206-227. *)
Definition main_write : M unit :=
  dummy ← load_dummyCycles;
  smif_status ← HyperBus_Write TEST_SECTOR_ADDRESS 32 ptr_tx_buf dummy;
  when (negb (smif_status =? CY_SMIF_SUCCESS))
    (printf write_fail_text;;
     CY_ASSERT 0);;
  printf (CR +:+ LF +:+ "2. Writing data to memory - Success " +:+ LF +:+ CR);;
  print_array "Written Data" ptr_tx_buf SIZE_IN_BYTES;;
  printf separator.

Definition read_back_fail_text : string :=
  CR +:+ LF +:+ "3. Reading back for verification - Fail " +:+ LF +:+ CR.

(** main, lines 231-251. *)
Definition main_read_back : M unit :=
  dummy ← load_dummyCycles;
  smif_status ← HyperBus_Read TEST_SECTOR_ADDRESS 32 ptr_rx_buf dummy;
  when (negb (smif_status =? CY_SMIF_SUCCESS))
    (printf read_back_fail_text;;
     CY_ASSERT 0);;
  printf (CR +:+ LF +:+ "3. Reading back for verification - Success " +:+ LF +:+ CR);;
  print_array "Received Data" ptr_rx_buf SIZE_IN_BYTES.

Definition wide_separator : string :=
  CR +:+ LF
  +:+ "=========================================================================="
  +:+ CR +:+ LF.

Definition mismatch_text : string :=
  CR +:+ LF
  +:+ "Read data does not match with written data. Read/Write operation failed. "
  +:+ LF +:+ CR.

Definition success_text : string :=
  CR +:+ LF +:+ "SUCCESS: Read data matches with written data!" +:+ CR +:+ LF.

(** main, lines 253-264. *)
Definition main_verify : M unit :=
  r ← memcmp ptr_tx_buf ptr_rx_buf SIZE_IN_BYTES;
  if negb (0 =? u32 r) then
    printf wide_separator;;
    printf mismatch_text;;
    printf wide_separator
  else
    printf separator;;
    printf success_text;;
    printf separator.

(** main, line 267. *)
Definition main_xip_mode : M unit :=
  run (Cy_SMIF_SetMode CY_SMIF_MEMORY).

(** main, lines 276-278. *)
Definition main_xip_read : M unit :=
  memcpy_xip ptr_rx_buf TEST_SECTOR_ADDRESS SIZE_IN_BYTES;;
  print_array "4. XIP READ " ptr_rx_buf SIZE_IN_BYTES.

Definition xip_success_text : string :=
  "XIP Read Functionality - Success" +:+ LF +:+ CR.

Definition xip_fail_text : string :=
  "XIP Read Functionality - Fail" +:+ LF +:+ CR.

Definition completed_text : string :=
  LF +:+ CR +:+ "Completed SMIF HyperRAM Test app verification" +:+ LF +:+ CR.

(** main, lines 281-301. *)
Definition main_xip_exec : M unit :=
  run Cy_SMIF_DeviceTransfer_ClearMergeTimeout;;
  run Cy_SMIF_CacheInvalidate;;
  run Cy_SMIF_CacheDisable;;
  printf (LF +:+ CR +:+ "Verify execution from memory in XIP Mode" +:+ LF +:+ CR);;
  printf ("--------------------------------------------" +:+ LF +:+ CR);;
  run (Cy_SMIF_SetMode CY_SMIF_MEMORY);;
  loop_count ← mret (u16 (executed_api (u8 LOOP_VALUE)));
  (if loop_count =? u32 (LOOP_VALUE + 1)
   then printf xip_success_text
   else printf xip_fail_text);;
  printf completed_text.

(** main, lines 304-306: [for (;;) {}]. *)
Definition main_idle : M unit :=
  fun s => Spin s.

(** The statements of main in program order. *)
Definition main_steps : list (M unit) :=
  [ main_board_init;          (*  0: lines 120-126 *)
    main_gpio;                (*  1: line  128     *)
    main_uart_init;           (*  2: lines 131-138 *)
    main_banner;              (*  3: lines 141-149 *)
    main_smif_init;           (*  4: lines 151-157 *)
    main_smif_enable;         (*  5: lines 159-163 *)
    main_memslot_init;        (*  6: lines 165-171 *)
    main_normal_mode;         (*  7: line  173     *)
    main_clear_rx;            (*  8: line  175     *)
    main_read_before_write;   (*  9: lines 177-198 *)
    main_prepare_tx;          (* 10: lines 200-204 *)
    main_write;               (* 11: lines 206-227 *)
    main_clear_rx;            (* 12: line  229     *)
    main_read_back;           (* 13: lines 231-251 *)
    main_verify;              (* 14: lines 253-264 *)
    main_xip_mode;            (* 15: line  267     *)
    main_clear_rx;            (* 16: line  273     *)
    main_xip_read;            (* 17: lines 276-278 *)
    main_xip_exec;            (* 18: lines 281-301 *)
    main_idle ].              (* 19: lines 304-306 *)

Fixpoint exec (steps : list (M unit)) : M unit :=
  match steps with
  | [] => mret tt
  | m :: steps => m;; exec steps
  end.

Definition main : M unit := exec main_steps.

(** main from its first statement up to, and without, step [k]; and main
    from step [k] on. *)
Definition upto (k : nat) : M unit := exec (take k main_steps).
Definition from (k : nat) : M unit := exec (drop k main_steps).

End Program.

(** ** A test bench: an SDK over a simulated HyperRAM

    The bench stores halfwords; the return codes of the fallible calls and a
    filter applied to every halfword read over the bus are scripted, so that
    failing calls and a corrupting device can be exercised. *)

Module Bench.

Record script := mkScript {
  bsp_rc : Z;
  uart_rc : Z;
  smif_rc : Z;
  memslot_rc : Z;
  read1_rc : Z;
  write_rc : Z;
  read2_rc : Z;
  read_filter : Z -> Z
}.

Record world := mkWorld {
  ram : Z -> Z;       (* halfword at each halfword address *)
  reads : nat         (* HyperBus reads performed *)
}.

Definition ram_write (addr : Z) (ws : list Z) (m : Z -> Z) : Z -> Z :=
  fun a =>
    if decide (addr <= a < addr + Z.of_nat (length ws))
    then nth (Z.to_nat (a - addr)) ws 0
    else m a.

Definition ram_read (addr n : Z) (m : Z -> Z) : list Z :=
  m <$> seqZ addr n.

#[export] Instance sdk (sc : script) : Sdk world := {|
  CY_RSLT_SUCCESS := 0;
  CY_SMIF_SUCCESS := 0;
  cybsp_init w := (bsp_rc sc, w);
  cy_retarget_io_init_fc w := (uart_rc sc, w);
  Cy_SMIF_Init _ w := (smif_rc sc, w);
  Cy_SMIF_Memslot_Init w := (memslot_rc sc, w);
  Cy_SMIF_HyperBus_Read addr n _ w :=
    (match reads w with O => read1_rc sc | _ => read2_rc sc end,
     read_filter sc <$> ram_read addr n (ram w),
     mkWorld (ram w) (S (reads w)));
  Cy_SMIF_HyperBus_Write addr n ws _ w :=
    (write_rc sc, mkWorld (ram_write addr (take (Z.to_nat n) ws) (ram w)) (reads w));
  xip_load off n w :=
    (take (Z.to_nat n) (bytes_of_u16s (ram_read off n (ram w))), w);
  sdk_run _ w := w
|}.

(** All calls succeed and the device returns what it stores. *)
Definition good : script := mkScript 0 0 0 0 0 0 0 (fun w => w).

(** All calls succeed, but bit 0 of every halfword read is stuck at one. *)
Definition stuck_bit : script := mkScript 0 0 0 0 0 0 0 (fun w => Z.lor w 1).

(** The board init fails; the write fails. *)
Definition board_fails : script := mkScript 1 0 0 0 0 0 0 (fun w => w).
Definition write_fails : script := mkScript 0 0 0 0 0 1 0 (fun w => w).

(** Power-on state: the RAM holds 0xA5A5 everywhere. *)
Definition power_on : world := mkWorld (fun _ => 0xA5A5) 0.

(** The state in which main starts: nothing printed, and the two arrays
    holding whatever the stack held. *)
Definition start (tx0 rx0 : list Z) : state world :=
  mkState [] tx0 rx0 0 power_on.

Definition stack_garbage : list Z := replicate 64 0xEE.

(** The state in which main starts on the bench. *)
Definition boot : state world := start stack_garbage stack_garbage.

(** A state for print_array alone: nine bytes in the receive array. *)
Definition nine_bytes : state world :=
  mkState [] [] [0x00; 0x11; 0x22; 0x33; 0x44; 0x55; 0x66; 0x77; 0x88] 0 power_on.

End Bench.

(** ** Specification-side definitions *)

(** Following the specification: a byte as two hexadecimal digits. *)
Definition two_hex_digits (b : Z) : string :=
  String (digit_char (b / 16)) (String (digit_char (b mod 16)) "").

(** Following the specification: the label line with the byte count and the
    rule below it. *)
Definition dump_label (message : string) (size : Z) : list string :=
  [ LF +:+ CR +:+ message +:+ " (" +:+ fmt_u size +:+ " bytes):" +:+ LF +:+ CR;
    "-------------------------" +:+ CR +:+ LF ].

(** Following the specification: every byte in order as [0x] and two
    hexadecimal digits, with a line break after every 8th byte; [printed]
    is the number of bytes printed before. *)
Fixpoint dump_spec (printed : Z) (bs : list Z) : list string :=
  match bs with
  | [] => []
  | b :: bs =>
      ("0x" +:+ two_hex_digits b +:+ " ")
      :: (if (printed + 1) mod 8 =? 0 then [CR +:+ LF] else [])
      ++ dump_spec (printed + 1) bs
  end.

(** What the loop of [print_array] prints for bytes [bs], the first of them
    at index [index]. *)
Fixpoint dump_text (index : Z) (bs : list Z) : list string :=
  match bs with
  | [] => []
  | b :: bs =>
      ("0x" +:+ fmt_02X b +:+ " ")
      :: (if 0 =? (index + 1) mod BYTES_PER_LINE then [CR +:+ LF] else [])
      ++ dump_text (index + 1) bs
  end.

Fixpoint count_char (c : ascii) (s : string) : nat :=
  match s with
  | EmptyString => 0
  | String a s => (if Ascii.eqb a c then 1 else 0) + count_char c s
  end%nat.

(** Line breaks in a sequence of printed texts: the line feeds in it. *)
Definition line_breaks (out : list string) : nat :=
  sum_list_with (count_char "010"%char) out.

(** The text of one byte in the dump. *)
Definition byte_text (b : Z) : string := "0x" +:+ fmt_02X b +:+ " ".

(** The dump laid out in lines: [groups] complete groups of 8 bytes, each
    followed by one line break, then the remaining bytes with no line break
    after them. *)
Fixpoint dump_lines (groups : nat) (bs : list Z) : list string :=
  match groups with
  | O => byte_text <$> bs
  | S groups =>
      (byte_text <$> take 8 bs) ++ [CR +:+ LF] ++ dump_lines groups (drop 8 bs)
  end.

(** Following the specification of the dump routine: the number of line
    breaks for [n] bytes, [ceil(n / 8)]. *)
Definition ceil_div8 (n : Z) : Z := (n + 7) / 8.

(** The two arrays have their declared size and hold bytes. *)
Definition wf {World} (s : state World) : Prop :=
  (length (tx_buf s) = Z.to_nat SIZE_IN_BYTES /\
   length (rx_buf s) = Z.to_nat SIZE_IN_BYTES) /\
  Forall is_u8 (tx_buf s) /\ Forall is_u8 (rx_buf s).

(** Everything but the console agrees. *)
Definition same_memory {World} (s s' : state World) : Prop :=
  tx_buf s' = tx_buf s /\ rx_buf s' = rx_buf s /\
  dummyCycles s' = dummyCycles s /\ hw s' = hw s.

(** [P] holds of the state an outcome carries. *)
Definition post {World A} (P : state World -> Prop) (o : outcome World A) : Prop :=
  match o with
  | Ret _ s | Halt s | Spin s => P s
  | Undef | OutOfFuel => True
  end.

Definition preserves {World A} (P : state World -> Prop) (m : M World A) : Prop :=
  forall s, P s -> post P (m s).

(** The device returns on a read what the preceding write at the same
    address and of the same length stored. *)
Definition read_after_write {World} `{Sdk World} : Prop :=
  forall addr n ws dummy w w1 status ws' w2,
    length ws = Z.to_nat n ->
    Cy_SMIF_HyperBus_Write addr n ws dummy w = (CY_SMIF_SUCCESS, w1) ->
    Cy_SMIF_HyperBus_Read addr n dummy w1 = (status, ws', w2) ->
    status = CY_SMIF_SUCCESS ->
    take (Z.to_nat n) ws' = ws.

(** The read-back of main delivers what its write stored: in the state
    [s] in which control reaches the write, whenever the write of the 32
    halfwords of the transmit array succeeds, a successful read-back of 32
    halfwords at the same address, in the hardware state the write left,
    delivers those halfwords. *)
Definition read_back_faithful {World} `{Sdk World} (s : state World) : Prop :=
  forall w1 ws w2,
    Cy_SMIF_HyperBus_Write TEST_SECTOR_ADDRESS 32
      (u16s_of_bytes (take 64 (tx_buf s))) (dummyCycles s) (hw s)
    = (CY_SMIF_SUCCESS, w1) ->
    Cy_SMIF_HyperBus_Read TEST_SECTOR_ADDRESS 32 (dummyCycles s) w1
    = (CY_SMIF_SUCCESS, ws, w2) ->
    take 32 ws = u16s_of_bytes (take 64 (tx_buf s)).

(** What an outcome shows on the console, and whether the program was
    stopped in an assertion. *)
Definition printed {World A} (o : outcome World A) : list string :=
  match o with
  | Ret _ s | Halt s | Spin s => console s
  | Undef | OutOfFuel => []
  end.

Definition returned {World A} (o : outcome World A) : bool :=
  match o with
  | Ret _ _ => true
  | _ => false
  end.

Definition halted {World A} (o : outcome World A) : bool :=
  match o with
  | Halt _ => true
  | _ => false
  end.

Section Fallible.

Context {World : Type} {sdk : Sdk World}.

(** The fallible calls of main: the step each one opens, the call with its
    arguments, the status that counts as success, and what main prints when
    the status is another one. *)
Inductive fallible : nat -> M World Z -> Z -> list string -> Prop :=
| fallible_board_init :
    fallible 0 (call cybsp_init) CY_RSLT_SUCCESS []
| fallible_uart_init :
    fallible 2 (call cy_retarget_io_init_fc) CY_RSLT_SUCCESS []
| fallible_smif_init :
    fallible 4 (call (Cy_SMIF_Init TIMEOUT_MS)) CY_SMIF_SUCCESS
      [smif_init_fail_text]
| fallible_memslot_init :
    fallible 6 (call Cy_SMIF_Memslot_Init) CY_SMIF_SUCCESS
      [memslot_init_fail_text]
| fallible_read_before_write :
    fallible 9
      (load_dummyCycles ≫= HyperBus_Read TEST_SECTOR_ADDRESS 32 ptr_rx_buf)
      CY_SMIF_SUCCESS [read_before_write_fail_text]
| fallible_write :
    fallible 11
      (load_dummyCycles ≫= HyperBus_Write TEST_SECTOR_ADDRESS 32 ptr_tx_buf)
      CY_SMIF_SUCCESS [write_fail_text]
| fallible_read_back :
    fallible 13
      (load_dummyCycles ≫= HyperBus_Read TEST_SECTOR_ADDRESS 32 ptr_rx_buf)
      CY_SMIF_SUCCESS [read_back_fail_text].

End Fallible.

(** ** Whole runs of main *)

Definition spinning {World A} (o : outcome World A) : bool :=
  match o with
  | Spin _ => true
  | _ => false
  end.

(** main, started in [s0], reached one of its fallible calls, the call
    returned another status than success, and [sh] is the state the call
    left with the diagnostic of that call printed. *)
Definition failed_call {World} `{Sdk World} (s0 sh : state World) : Prop :=
  exists k f ok diag s1 rc s2,
    fallible k f ok diag /\
    upto k s0 = Ret tt s1 /\
    f s1 = Ret rc s2 /\
    rc <> ok /\
    sh = set_console (console s2 ++ diag) s2.


(** A statement that completes from every well-formed state. *)
Definition total {World} (m : M World unit) : Prop :=
  forall s, wf s -> exists s', m s = Ret tt s'.

(** A statement opened by the fallible call [f]: the call completes, and the
    statement completes when the status is [ok] and is stopped after the
    diagnostic otherwise. *)
Definition checked {World} (f : M World Z) (ok : Z) (diag : list string)
    (m : M World unit) : Prop :=
  forall s, wf s ->
    exists rc s2,
      f s = Ret rc s2 /\
      ((rc = ok /\ exists s', m s = Ret tt s') \/
       (rc <> ok /\ m s = Halt (set_console (console s2 ++ diag) s2))).

(** Control reaches step [k] of main, in a well-formed state. *)
Definition reach {World} `{Sdk World} (k : nat) (s0 : state World) : Prop :=
  exists s, upto k s0 = Ret tt s /\ wf s.

(** Characters in a sequence of printed texts. *)
Definition text_length (out : list string) : nat :=
  sum_list_with String.length out.

(** ** Formatting *)

Lemma digit_char_not_lf d : Ascii.eqb (digit_char d) "010"%char = false.
Proof.
  unfold digit_char.
  repeat match goal with
         | |- context [match ?x with _ => _ end] => destruct x
         end; reflexivity.
Qed.

Lemma count_char_app c s t :
  count_char c (s +:+ t) = (count_char c s + count_char c t)%nat.
Proof. induction s as [|a s IH]; simpl; [reflexivity | rewrite IH; lia]. Qed.

Lemma digits_no_lf base more v acc :
  count_char "010"%char (digits base more v acc) = count_char "010"%char acc.
Proof.
  revert v acc.
  induction more as [|more IH]; intros v acc; cbn [digits].
  - cbn [count_char]. rewrite digit_char_not_lf. reflexivity.
  - destruct (v / base =? 0).
    + cbn [count_char]. rewrite digit_char_not_lf. reflexivity.
    + rewrite IH. cbn [count_char]. rewrite digit_char_not_lf. reflexivity.
Qed.

Lemma fmt_02X_no_lf b : count_char "010"%char ("0x" +:+ fmt_02X b +:+ " ") = 0%nat.
Proof.
  rewrite !count_char_app. unfold fmt_02X.
  destruct (_ <? _)%nat; rewrite ?count_char_app, digits_no_lf; reflexivity.
Qed.

Lemma fmt_02X_u8 b : is_u8 b -> fmt_02X b = two_hex_digits b.
Proof.
  unfold is_u8, fmt_02X, two_hex_digits, u32. intros Hb.
  rewrite (Z.mod_small b (2 ^ 32)) by lia.
  cbn [digits].
  destruct (b / 16 =? 0) eqn:Hq.
  - apply Z.eqb_eq in Hq. rewrite Hq. reflexivity.
  - assert (b / 16 / 16 = 0) as ->.
    { apply Z.div_small. split; [apply Z.div_pos; lia | apply Z.div_lt_upper_bound; lia]. }
    assert ((b / 16) mod 16 = b / 16) as ->.
    { apply Z.mod_small. split; [apply Z.div_pos; lia | apply Z.div_lt_upper_bound; lia]. }
    reflexivity.
Qed.

Lemma dump_text_app k l1 l2 :
  dump_text k (l1 ++ l2) = dump_text k l1 ++ dump_text (k + Z.of_nat (length l1)) l2.
Proof.
  revert k. induction l1 as [|b l1 IH]; intros k; cbn [dump_text app length].
  - f_equal. lia.
  - rewrite IH. f_equal. rewrite <- app_assoc. do 3 f_equal. lia.
Qed.

Lemma dump_text_spec k bs :
  Forall is_u8 bs -> dump_text k bs = dump_spec k bs.
Proof.
  intros H. revert k. induction H as [|b bs Hb _ IH]; intros k; cbn [dump_text dump_spec].
  - reflexivity.
  - rewrite IH, (fmt_02X_u8 b Hb). unfold BYTES_PER_LINE.
    rewrite (Z.eqb_sym 0). reflexivity.
Qed.

Lemma line_breaks_app o1 o2 :
  line_breaks (o1 ++ o2) = (line_breaks o1 + line_breaks o2)%nat.
Proof. apply sum_list_with_app. Qed.

(** The line breaks among the bytes at indices [k .. k + length bs - 1]:
    one for each multiple of 8 in [k + 1 .. k + length bs]. *)
Lemma line_breaks_dump_text k bs :
  0 <= k ->
  Z.of_nat (line_breaks (dump_text k bs)) = (k + Z.of_nat (length bs)) / 8 - k / 8.
Proof.
  intros Hk. revert k Hk.
  induction bs as [|b bs IH]; intros k Hk; cbn [dump_text length].
  - replace (k + Z.of_nat 0) with k by lia. unfold line_breaks. simpl. lia.
  - change (?x :: ?l ++ ?r) with ([x] ++ l ++ r).
    rewrite !line_breaks_app, !Nat2Z.inj_add, IH by lia.
    replace (k + Z.of_nat (S (length bs))) with (k + 1 + Z.of_nat (length bs)) by lia.
    assert (Z.of_nat (line_breaks ["0x" +:+ fmt_02X b +:+ " "]) = 0) as ->.
    { unfold line_breaks. cbn [sum_list_with].
      rewrite fmt_02X_no_lf. reflexivity. }
    unfold BYTES_PER_LINE.
    pose proof (Z.div_mod k 8 ltac:(lia)) as E1.
    pose proof (Z.mod_pos_bound k 8 ltac:(lia)) as B1.
    pose proof (Z.div_mod (k + 1) 8 ltac:(lia)) as E2.
    pose proof (Z.mod_pos_bound (k + 1) 8 ltac:(lia)) as B2.
    destruct (0 =? (k + 1) mod 8) eqn:Hm.
    + apply Z.eqb_eq in Hm.
      change (Z.of_nat (line_breaks [CR +:+ LF])) with 1. lia.
    + apply Z.eqb_neq in Hm.
      change (Z.of_nat (line_breaks [])) with 0. lia.
Qed.

(** Where the line breaks fall: [dump_text] started at a multiple of 8. *)
Lemma mod8_offset k j : k mod 8 = 0 -> (k + j) mod 8 = j mod 8.
Proof.
  intros Hk. rewrite Z.add_mod, Hk, Z.add_0_l, Z.mod_mod by lia. reflexivity.
Qed.

Lemma dump_text_within_line bs k r :
  k mod 8 = 0 -> 0 <= r -> r + Z.of_nat (length bs) < 8 ->
  dump_text (k + r) bs = byte_text <$> bs.
Proof.
  intros Hk. revert r.
  induction bs as [|b bs IH]; intros r Hr Hlen; cbn [dump_text fmap list_fmap].
  - reflexivity.
  - cbn [length] in Hlen. unfold BYTES_PER_LINE.
    rewrite <- Z.add_assoc, (mod8_offset k (r + 1) Hk), Z.mod_small by lia.
    destruct (Z.eqb_spec 0 (r + 1)) as [E|_]; [lia|].
    cbn [app]. rewrite IH by lia. reflexivity.
Qed.

Lemma dump_text_full_line bs k :
  k mod 8 = 0 -> (8 <= length bs)%nat ->
  dump_text k bs
  = (byte_text <$> take 8 bs) ++ [CR +:+ LF] ++ dump_text (k + 8) (drop 8 bs).
Proof.
  intros Hk Hlen.
  destruct (lookup_lt_is_Some_2 bs 7 ltac:(lia)) as [b Hb].
  rewrite <- (take_drop 7 bs) at 1.
  rewrite (drop_S _ _ _ Hb), dump_text_app, length_take, Nat.min_l by lia.
  replace k with (k + 0) at 1 by lia.
  rewrite dump_text_within_line by (rewrite ?length_take; lia).
  cbn [dump_text]. unfold BYTES_PER_LINE.
  replace (k + Z.of_nat 7 + 1) with (k + 8) by lia.
  rewrite (mod8_offset k 8 Hk). change (0 =? 8 mod 8) with true.
  rewrite (take_S_r _ _ _ Hb), fmap_app. cbn [fmap list_fmap app].
  rewrite <- app_assoc. reflexivity.
Qed.

Lemma dump_text_lines n bs k :
  k mod 8 = 0 -> Z.of_nat n = Z.of_nat (length bs) / 8 ->
  dump_text k bs = dump_lines n bs.
Proof.
  revert bs k. induction n as [|n IH]; intros bs k Hk Hn; cbn [dump_lines].
  - replace k with (k + 0) by lia. apply dump_text_within_line; [exact Hk | lia |].
    pose proof (Z.div_mod (Z.of_nat (length bs)) 8 ltac:(lia)).
    pose proof (Z.mod_pos_bound (Z.of_nat (length bs)) 8 ltac:(lia)). lia.
  - pose proof (Z.div_mod (Z.of_nat (length bs)) 8 ltac:(lia)) as E.
    pose proof (Z.mod_pos_bound (Z.of_nat (length bs)) 8 ltac:(lia)) as B.
    rewrite dump_text_full_line by (try assumption; lia).
    rewrite (IH (drop 8 bs) (k + 8)); [reflexivity | |].
    + rewrite (mod8_offset k 8 Hk). reflexivity.
    + rewrite length_drop.
      replace (Z.of_nat (length bs - 8)) with (Z.of_nat (length bs) + (-1) * 8) by lia.
      rewrite Z.div_add by lia. lia.
Qed.

(** ** Bytes and halfwords *)

Lemma halfword_lo lo hi :
  is_u8 lo -> is_u8 hi -> Z.land (Z.lor lo (Z.shiftl hi 8)) 0xFF = lo.
Proof.
  unfold is_u8. intros Hlo Hhi. change 0xFF with (Z.ones 8).
  rewrite Z.land_lor_distr_l, !Z.land_ones, Z.shiftl_mul_pow2 by lia.
  rewrite Z.mod_mul, Z.lor_0_r by lia. apply Z.mod_small. lia.
Qed.

Lemma halfword_hi lo hi :
  is_u8 lo -> is_u8 hi -> Z.land (Z.shiftr (Z.lor lo (Z.shiftl hi 8)) 8) 0xFF = hi.
Proof.
  unfold is_u8. intros Hlo Hhi. change 0xFF with (Z.ones 8).
  rewrite Z.shiftr_lor, Z.shiftr_shiftl_l by lia.
  replace (8 - 8) with 0 by lia.
  rewrite Z.shiftl_0_r, Z.shiftr_div_pow2, Z.div_small, Z.lor_0_l by lia.
  rewrite Z.land_ones by lia. apply Z.mod_small. lia.
Qed.

Lemma bytes_of_u16s_of_bytes bs :
  Forall is_u8 bs -> Nat.Even (length bs) ->
  bytes_of_u16s (u16s_of_bytes bs) = bs.
Proof.
  intros Hbs [k Hk]. revert bs Hbs Hk.
  induction k as [|k IH]; intros bs Hbs Hk.
  - destruct bs; [reflexivity | simpl in Hk; lia].
  - destruct bs as [|lo [|hi bs]]; simpl in Hk; try lia.
    apply Forall_cons in Hbs as [Hlo Hbs].
    apply Forall_cons in Hbs as [Hhi Hbs].
    cbn [u16s_of_bytes bytes_of_u16s].
    rewrite IH by (try assumption; lia).
    rewrite halfword_lo, halfword_hi by assumption. reflexivity.
Qed.

Lemma length_u16s_of_bytes bs :
  Nat.Even (length bs) -> (2 * length (u16s_of_bytes bs) = length bs)%nat.
Proof.
  intros [k Hk]. revert bs Hk.
  induction k as [|k IH]; intros bs Hk.
  - destruct bs; [reflexivity | simpl in Hk; lia].
  - destruct bs as [|lo [|hi bs]]; simpl in Hk; try lia.
    cbn [u16s_of_bytes length]. specialize (IH bs ltac:(lia)). lia.
Qed.

Lemma bytes_of_u16s_u8 ws : Forall is_u8 (bytes_of_u16s ws).
Proof.
  induction ws as [|w ws IH]; cbn [bytes_of_u16s]; [constructor|].
  assert (forall x, is_u8 (Z.land x 0xFF)) as H.
  { intros x. unfold is_u8. change 0xFF with (Z.ones 8).
    rewrite Z.land_ones by lia. apply Z.mod_pos_bound. lia. }
  apply Forall_cons; split; [apply H|].
  apply Forall_cons; split; [apply H | exact IH].
Qed.

Lemma overwrite_full dst src :
  length src = length dst -> overwrite dst src = Some src.
Proof.
  intros H. unfold overwrite. rewrite H.
  destruct (decide _) as [_|]; [|lia].
  rewrite drop_all, app_nil_r. reflexivity.
Qed.

Lemma overwrite_length dst src b :
  overwrite dst src = Some b -> length b = length dst.
Proof.
  unfold overwrite. destruct (decide _) as [Hle|]; [|discriminate].
  intros [= <-]. rewrite length_app, length_drop. lia.
Qed.

(** [memcmp] tells whether the compared bytes agree. *)
Lemma memcmp_bytes_eq a n : (n <= length a)%nat -> memcmp_bytes a a n = Some 0.
Proof.
  revert a. induction n as [|n IH]; intros a Hn; cbn [memcmp_bytes]; [reflexivity|].
  destruct a as [|x a]; simpl in Hn; [lia|].
  rewrite Z.eqb_refl. apply IH. lia.
Qed.

Lemma memcmp_bytes_neq a b :
  length a = length b -> Forall is_u8 a -> Forall is_u8 b -> a <> b ->
  exists r, memcmp_bytes a b (length a) = Some r /\ u32 r <> 0.
Proof.
  revert b. induction a as [|x a IH]; intros [|y b] Hlen Ha Hb Hne;
    simpl in Hlen; try lia; [congruence|].
  apply Forall_cons in Ha as [Hx Ha]. apply Forall_cons in Hb as [Hy Hb].
  cbn [length memcmp_bytes].
  destruct (x =? y) eqn:Hxy.
  - apply Z.eqb_eq in Hxy. subst y.
    apply IH; auto. congruence.
  - apply Z.eqb_neq in Hxy. exists (x - y). split; [reflexivity|].
    unfold is_u8 in Hx, Hy. unfold u32.
    destruct (Z_lt_le_dec (x - y) 0).
    + rewrite <- (Z.mod_add _ 1) by lia. rewrite Z.mod_small; lia.
    + rewrite Z.mod_small; lia.
Qed.

Section Proofs.

Context {World : Type} {sdk : Sdk World}.

Local Abbreviation state := (state World).
Local Abbreviation M := (M World).

(** ** The monad *)

Lemma bind_run {A B} (m : M A) (k : A -> M B) s :
  (m ≫= k) s =
  match m s with
  | Ret a s' => k a s'
  | Halt s' => Halt s'
  | Spin s' => Spin s'
  | Undef => Undef
  | OutOfFuel => OutOfFuel
  end.
Proof. reflexivity. Qed.

Lemma bind_Ret {A B} (m : M A) (k : A -> M B) s a s' :
  m s = Ret a s' -> (m ≫= k) s = k a s'.
Proof. intros H. rewrite bind_run, H. reflexivity. Qed.

Lemma bind_Halt {A B} (m : M A) (k : A -> M B) s s' :
  m s = Halt s' -> (m ≫= k) s = Halt s'.
Proof. intros H. rewrite bind_run, H. reflexivity. Qed.

Lemma bind_Ret_inv {A B} (m : M A) (k : A -> M B) s b s2 :
  (m ≫= k) s = Ret b s2 -> exists a s1, m s = Ret a s1 /\ k a s1 = Ret b s2.
Proof. rewrite bind_run. destruct (m s); try discriminate. eauto. Qed.

Lemma preserves_bind {A B} P (m : M A) (k : A -> M B) :
  preserves P m -> (forall a, preserves P (k a)) -> preserves P (m ≫= k).
Proof.
  intros Hm Hk s Hs. rewrite bind_run.
  specialize (Hm s Hs). destruct (m s); simpl in *; auto.
  apply Hk. assumption.
Qed.

Lemma preserves_ret {A} P (a : A) : preserves P (mret a : M A).
Proof. intros s Hs. exact Hs. Qed.

Lemma preserves_when P c (m : M unit) : preserves P m -> preserves P (when c m).
Proof. intros Hm. destruct c; [exact Hm | apply preserves_ret]. Qed.

Lemma preserves_for_u32 P (body : Z -> M unit) :
  (forall i, preserves P (body i)) ->
  forall fuel index bound, preserves P (for_u32 fuel index bound body).
Proof.
  intros Hbody fuel.
  induction fuel as [|fuel IH]; intros index bound s Hs; cbn [for_u32];
    destruct (index <? bound); simpl; auto.
  apply (preserves_bind P (body index) (fun _ => for_u32 fuel _ bound body)); auto.
Qed.

(** ** Counted loops *)

(** A loop whose body keeps an invariant and completes runs to its bound
    and never exhausts a fuel of at least the number of iterations. *)
Lemma for_u32_rule (Inv : Z -> state -> Prop) (body : Z -> M unit) bound :
  bound < 2 ^ 32 ->
  forall lo,
  (forall i t, lo <= i < bound -> Inv i t ->
     exists t', body i t = Ret tt t' /\ Inv (i + 1) t') ->
  forall fuel index s,
    0 <= lo <= index -> index <= bound ->
    (Z.to_nat (bound - index) <= fuel)%nat ->
    Inv index s ->
    exists s', for_u32 fuel index bound body s = Ret tt s' /\ Inv bound s'.
Proof.
  intros Hbound lo Hbody fuel.
  induction fuel as [|fuel IH]; intros index s Hlo Hle Hfuel Hinv; cbn [for_u32].
  - assert (index = bound) as -> by lia.
    rewrite Z.ltb_irrefl. eauto.
  - destruct (index <? bound) eqn:Hlt.
    + apply Z.ltb_lt in Hlt.
      destruct (Hbody index s ltac:(lia) Hinv) as (t' & Hrun & Hinv').
      rewrite (bind_Ret _ _ _ _ _ Hrun).
      assert (u32 (index + 1) = index + 1) as ->
        by (unfold u32; apply Z.mod_small; lia).
      apply IH; [lia | lia | lia | assumption].
    + apply Z.ltb_ge in Hlt. assert (index = bound) as -> by lia. eauto.
Qed.

(** ** print_array *)

Lemma deref_set_console p c (s : state) : deref p (set_console c s) = deref p s.
Proof. destruct p; reflexivity. Qed.

Lemma set_console_twice c1 c2 (s : state) :
  set_console c1 (set_console c2 s) = set_console c1 s.
Proof. reflexivity. Qed.

Lemma console_set_console c (s : state) : console (set_console c s) = c.
Proof. reflexivity. Qed.

(** The call completes whenever the buffer holds [size] bytes, and appends
    the label and the dump of the first [size] bytes to the console. *)
Lemma print_array_run message buf size (s : state) :
  0 <= size < 2 ^ 32 ->
  (Z.to_nat size <= length (deref buf s))%nat ->
  print_array message buf size s =
  Ret tt (set_console
            (console s ++ dump_label message size
             ++ dump_text 0 (take (Z.to_nat size) (deref buf s))) s).
Proof.
  intros Hsize Hlen. unfold print_array.
  set (c0 := console s ++ dump_label message size).
  set (s0 := set_console c0 s).
  pose (Inv := fun (i : Z) (t : state) =>
    t = set_console (c0 ++ dump_text 0 (take (Z.to_nat i) (deref buf s))) s).
  match goal with |- context [for_u32 _ _ _ ?b] => set (body := b) end.
  assert (Hbody : forall i t, 0 <= i < size -> Inv i t ->
            exists t', body i t = Ret tt t' /\ Inv (i + 1) t').
  { intros i t Hi ->.
    destruct (lookup_lt_is_Some_2 (deref buf s) (Z.to_nat i) ltac:(lia)) as [b Hb].
    exists (set_console
              ((c0 ++ dump_text 0 (take (Z.to_nat i) (deref buf s)))
               ++ ["0x" +:+ fmt_02X b +:+ " "]
               ++ (if 0 =? (i + 1) mod BYTES_PER_LINE then [CR +:+ LF] else [])) s).
    split.
    - unfold body. rewrite bind_run. unfold load_u8.
      rewrite deref_set_console, Hb.
      rewrite bind_run. unfold printf at 1. unfold when.
      assert (u32 (i + 1) = i + 1) as ->
        by (unfold u32; apply Z.mod_small; lia).
      destruct (0 =? (i + 1) mod BYTES_PER_LINE) eqn:Hm;
        unfold printf, mret, M_ret;
        rewrite ?set_console_twice, ?console_set_console;
        rewrite <- ?app_assoc, ?app_nil_r; reflexivity.
    - unfold Inv. replace (Z.to_nat (i + 1)) with (S (Z.to_nat i)) by lia.
      rewrite (take_S_r _ _ _ Hb), dump_text_app, length_take.
      rewrite Nat.min_l by lia.
      replace (0 + Z.of_nat (Z.to_nat i)) with i by lia.
      cbn [dump_text set_console console tx_buf rx_buf dummyCycles hw].
      destruct (0 =? (i + 1) mod BYTES_PER_LINE);
        cbn [app]; rewrite <- ?app_assoc; reflexivity. }
  destruct (for_u32_rule Inv body size (proj2 Hsize) 0 Hbody (Z.to_nat size) 0 s0)
    as (s' & Hrun & Hs'); [lia | lia | lia | |].
  - unfold Inv, s0, c0. cbn [dump_text take Z.to_nat].
    rewrite app_nil_r. reflexivity.
  - rewrite bind_run. unfold printf at 1. rewrite bind_run. unfold printf at 1.
    rewrite set_console_twice, console_set_console, <- app_assoc.
    match goal with
    | |- for_u32 _ _ _ _ ?st = _ => change st with s0
    end.
    rewrite Hrun, Hs'. unfold c0, dump_label.
    cbn [set_console console]. rewrite <- !app_assoc. reflexivity.
Qed.

(** print_array changes nothing but the console. *)
Lemma print_array_frame message buf size (s0 : state) :
  preserves (same_memory s0) (print_array message buf size).
Proof.
  assert (Hprintf : forall text, preserves (same_memory s0) (printf text))
    by (intros text s Hs; exact Hs).
  unfold print_array.
  apply preserves_bind; [apply Hprintf | intros _].
  apply preserves_bind; [apply Hprintf | intros _].
  apply preserves_for_u32. intros i.
  apply preserves_bind.
  - intros s Hs. unfold load_u8. destruct (_ !! _); simpl; [exact Hs | exact I].
  - intros b. apply preserves_bind; [apply Hprintf | intros _].
    apply preserves_when, Hprintf.
Qed.

Lemma print_array_same_memory message buf size (s s' : state) :
  print_array message buf size s = Ret tt s' -> same_memory s s'.
Proof.
  intros Hrun.
  pose proof (print_array_frame message buf size s s) as H.
  rewrite Hrun in H. apply H. repeat split.
Qed.

(** ** The invariant of main: array sizes and byte ranges *)

Lemma wf_assign p b (s : state) :
  wf s -> length b = length (deref p s) -> Forall is_u8 b -> wf (assign p b s).
Proof.
  unfold wf. intros ((Htx & Hrx) & Hbt & Hbr) Hlen Hb.
  destruct p; cbn [assign set_tx_buf set_rx_buf tx_buf rx_buf deref] in *;
    repeat split; auto; congruence.
Qed.

Lemma wf_deref p (s : state) :
  wf s -> length (deref p s) = Z.to_nat SIZE_IN_BYTES /\ Forall is_u8 (deref p s).
Proof. unfold wf. intros ((Htx & Hrx) & Hbt & Hbr). destruct p; simpl; auto. Qed.

Lemma wf_set_hw w (s : state) : wf s -> wf (set_hw w s).
Proof. exact id. Qed.

Lemma is_u8_u8 x : is_u8 (u8 x).
Proof. apply Z.mod_pos_bound. lia. Qed.

Lemma overwrite_u8 dst src b :
  overwrite dst src = Some b -> Forall is_u8 dst -> Forall is_u8 src -> Forall is_u8 b.
Proof.
  unfold overwrite. destruct (decide _); [|discriminate].
  intros [= <-] Hd Hs. apply Forall_app. split; [assumption|].
  apply Forall_drop. assumption.
Qed.

Lemma wf_overwrite p src b (s s1 : state) :
  wf s1 -> deref p s1 = deref p s ->
  overwrite (deref p s) src = Some b -> Forall is_u8 src -> wf (assign p b s1).
Proof.
  intros Hwf Heq Hov Hsrc. apply wf_assign; [assumption | |].
  - rewrite Heq. eapply overwrite_length, Hov.
  - eapply overwrite_u8; [exact Hov | | exact Hsrc].
    rewrite <- Heq. apply wf_deref, Hwf.
Qed.

Lemma preserves_printf text : preserves wf (printf text : M unit).
Proof. intros s Hs. exact Hs. Qed.

Lemma preserves_run p : preserves wf (run p : M unit).
Proof. intros s Hs. exact Hs. Qed.

Lemma preserves_call {A} (f : World -> A * World) : preserves wf (call f).
Proof. intros s Hs. unfold call. destruct (f (hw s)). exact Hs. Qed.

Lemma preserves_CY_ASSERT x : preserves wf (CY_ASSERT x : M unit).
Proof. intros s Hs. unfold CY_ASSERT. destruct (x =? 0); exact Hs. Qed.

Lemma preserves_memset p c n : preserves wf (memset p c n : M unit).
Proof.
  intros s Hs. unfold memset.
  destruct (overwrite _ _) as [b|] eqn:Hov; simpl; [|exact I].
  eapply wf_overwrite; [exact Hs | reflexivity | exact Hov |].
  apply Forall_replicate, is_u8_u8.
Qed.

Lemma preserves_memcmp p q n : preserves wf (memcmp p q n : M Z).
Proof. intros s Hs. unfold memcmp. destruct (memcmp_bytes _ _ _); simpl; auto. Qed.

Lemma preserves_memcpy_xip p off n : preserves wf (memcpy_xip p off n).
Proof.
  intros s Hs. unfold memcpy_xip. destruct (xip_load _ _ _) as [bs w].
  destruct (overwrite _ _) as [b|] eqn:Hov; simpl; [|exact I].
  eapply wf_overwrite; [apply wf_set_hw, Hs | destruct p; reflexivity | exact Hov |].
  apply Forall_fmap, Forall_true. intros x. apply is_u8_u8.
Qed.

Lemma preserves_HyperBus_Read addr n p d : preserves wf (HyperBus_Read addr n p d).
Proof.
  intros s Hs. unfold HyperBus_Read.
  destruct (Cy_SMIF_HyperBus_Read _ _ _ _) as [[status ws] w].
  destruct (overwrite _ _) as [b|] eqn:Hov; simpl; [|exact I].
  eapply wf_overwrite; [apply wf_set_hw, Hs | destruct p; reflexivity | exact Hov |].
  apply bytes_of_u16s_u8.
Qed.

Lemma preserves_HyperBus_Write addr n p d : preserves wf (HyperBus_Write addr n p d).
Proof.
  intros s Hs. unfold HyperBus_Write.
  destruct (decide _); simpl; [|exact I].
  destruct (Cy_SMIF_HyperBus_Write _ _ _ _ _) as [status w]. exact Hs.
Qed.

Lemma preserves_store_u8 p i v :
  is_u8 v -> preserves wf (store_u8 p i v : M unit).
Proof.
  intros Hv s Hs. unfold store_u8.
  destruct (decide _); simpl; [|exact I].
  apply wf_assign; [assumption | apply length_insert |].
  apply Forall_insert; [apply wf_deref, Hs | exact Hv].
Qed.

Lemma preserves_print_array message buf size :
  preserves wf (print_array message buf size : M unit).
Proof.
  intros s Hs. pose proof (print_array_frame message buf size s s) as H.
  specialize (H ltac:(repeat split)).
  destruct (print_array _ _ _ s) as [[] s'| s' | s' | |]; simpl in *; auto;
    destruct H as (Ht & Hr & _); unfold wf; rewrite Ht, Hr; exact Hs.
Qed.

Lemma preserves_load_dummyCycles : preserves wf (load_dummyCycles : M Z).
Proof. intros s Hs. exact Hs. Qed.

Lemma preserves_store_dummyCycles d : preserves wf (store_dummyCycles d : M unit).
Proof. intros s Hs. exact Hs. Qed.

Lemma preserves_main_idle : preserves wf (main_idle : M unit).
Proof. intros s Hs. exact Hs. Qed.

Ltac preserve :=
  repeat first
    [ apply preserves_printf | apply preserves_run | apply preserves_call
    | apply preserves_CY_ASSERT | apply preserves_memset | apply preserves_memcmp
    | apply preserves_memcpy_xip | apply preserves_HyperBus_Read
    | apply preserves_HyperBus_Write | apply preserves_print_array
    | apply preserves_load_dummyCycles | apply preserves_store_dummyCycles
    | apply preserves_main_idle | apply preserves_ret
    | apply preserves_store_u8, is_u8_u8
    | apply preserves_when
    | apply preserves_for_u32; intros ?
    | apply preserves_bind; [| intros ?]
    | match goal with
      | |- preserves _ (if ?c then _ else _) => destruct c
      end ].

Lemma preserves_main_steps : Forall (preserves wf) (main_steps : list (M unit)).
Proof.
  unfold main_steps.
  repeat (apply Forall_cons; split); try (apply Forall_nil; exact I).
  all: unfold main_board_init, main_gpio, main_uart_init, main_banner,
    main_smif_init, main_smif_enable, main_memslot_init, main_normal_mode,
    main_clear_rx, main_read_before_write, main_prepare_tx, main_write,
    main_read_back, main_verify, main_xip_mode, main_xip_read, main_xip_exec;
    preserve.
Qed.

(** ** Program points *)

Lemma preserves_exec P (steps : list (M unit)) :
  Forall (preserves P) steps -> preserves P (exec steps).
Proof.
  induction 1 as [|m steps Hm _ IH]; cbn [exec].
  - apply preserves_ret.
  - apply preserves_bind; auto.
Qed.

Lemma preserves_upto k : preserves wf (upto k : M unit).
Proof. apply preserves_exec, Forall_take, preserves_main_steps. Qed.

Lemma wf_upto k (s0 s : state) : wf s0 -> upto k s0 = Ret tt s -> wf s.
Proof. intros H0 H. pose proof (preserves_upto k s0 H0) as P. rewrite H in P. exact P. Qed.

Lemma bind_unit_r (m : M unit) s : (m;; mret tt) s = m s.
Proof. rewrite bind_run. destruct (m s) as [[] ?| | | |]; reflexivity. Qed.

Lemma exec_app (l1 l2 : list (M unit)) s :
  exec (l1 ++ l2) s = (exec l1;; exec l2) s.
Proof.
  revert s. induction l1 as [|m l1 IH]; intros s; cbn [exec app].
  - reflexivity.
  - rewrite !bind_run. destruct (m s); try reflexivity. apply IH.
Qed.

Lemma main_split k (s : state) : main s = (upto k;; from k) s.
Proof. unfold main, upto, from. rewrite <- exec_app, take_drop. reflexivity. Qed.

Lemma upto_step k (m : M unit) (s : state) :
  main_steps !! k = Some m -> upto (S k) s = (upto k;; m) s.
Proof.
  intros Hk. unfold upto. rewrite (take_S_r _ _ _ Hk), exec_app.
  rewrite !bind_run. destruct (exec _ s); try reflexivity.
  cbn [exec]. apply bind_unit_r.
Qed.

Lemma from_step k (m : M unit) (s : state) :
  main_steps !! k = Some m -> from k s = (m;; from (S k)) s.
Proof. intros Hk. unfold from. rewrite (drop_S _ _ _ Hk). reflexivity. Qed.

(** Control that reaches step [k] and is stopped there stops main. *)
Lemma main_halts_at k (m : M unit) (s0 s1 s2 : state) :
  main_steps !! k = Some m ->
  upto k s0 = Ret tt s1 -> m s1 = Halt s2 -> main s0 = Halt s2.
Proof.
  intros Hk Hpre Hm.
  rewrite (main_split k), (bind_Ret _ _ _ _ _ Hpre), (from_step _ _ _ Hk).
  apply bind_Halt, Hm.
Qed.

Lemma upto_inv k (m : M unit) (s0 s : state) :
  main_steps !! k = Some m -> upto (S k) s0 = Ret tt s ->
  exists s1, upto k s0 = Ret tt s1 /\ m s1 = Ret tt s.
Proof.
  intros Hk. rewrite (upto_step _ _ _ Hk). intros H.
  apply bind_Ret_inv in H as ([] & s1 & H1 & H2). eauto.
Qed.

Lemma exec_idle (l : list (M unit)) (s : state) a s' :
  exec (l ++ [main_idle]) s <> Ret a s'.
Proof.
  revert s. induction l as [|m l IH]; intros s; cbn [exec app].
  - discriminate.
  - rewrite bind_run. destruct (m s); try discriminate. apply IH.
Qed.

(** main ends in [for (;;) {}]: it never returns. *)
Lemma main_never_returns (s : state) a s' : main s <> Ret a s'.
Proof. apply (exec_idle (take 19 main_steps)). Qed.

(** ** The transmit pattern *)

Lemma main_prepare_tx_run (s : state) :
  length (tx_buf s) = Z.to_nat SIZE_IN_BYTES ->
  exists tx,
    main_prepare_tx s = Ret tt (set_tx_buf tx s) /\
    length tx = Z.to_nat SIZE_IN_BYTES /\
    forall j : nat,
      tx !! j = if decide (1 <= Z.of_nat j < SIZE_IN_BYTES)
                then Some (Z.of_nat j mod 256)
                else tx_buf s !! j.
Proof.
  intros Hlen. unfold main_prepare_tx.
  pose (Inv := fun (i : Z) (t : state) =>
    exists tx, t = set_tx_buf tx s /\ length tx = Z.to_nat SIZE_IN_BYTES /\
      forall j : nat,
        tx !! j = if decide (1 <= Z.of_nat j < i)
                  then Some (Z.of_nat j mod 256)
                  else tx_buf s !! j).
  match goal with |- context [for_u32 _ _ _ ?b] => set (body := b) end.
  assert (Hbody : forall i t, 1 <= i < SIZE_IN_BYTES -> Inv i t ->
            exists t', body i t = Ret tt t' /\ Inv (i + 1) t').
  { intros i t Hi (tx & -> & Htx & Hlk).
    exists (set_tx_buf (<[Z.to_nat i := u8 i]> tx) s). split.
    - unfold body, store_u8. cbn [deref set_tx_buf tx_buf].
      destruct (decide _) as [_|Hn]; [reflexivity|].
      exfalso. apply Hn. rewrite Htx. unfold SIZE_IN_BYTES in *. lia.
    - exists (<[Z.to_nat i := u8 i]> tx).
      split; [reflexivity|]. split; [rewrite length_insert; exact Htx|].
      intros j. destruct (decide (j = Z.to_nat i)) as [->|Hj].
      + rewrite list_lookup_insert_eq by (rewrite Htx; unfold SIZE_IN_BYTES in *; lia).
        destruct (decide _) as [_|Hn]; [|lia].
        rewrite Z2Nat.id by lia. reflexivity.
      + rewrite list_lookup_insert_ne by congruence. rewrite Hlk.
        destruct (decide _), (decide _); try reflexivity; lia. }
  destruct (for_u32_rule Inv body SIZE_IN_BYTES ltac:(reflexivity) 1 Hbody
              (Z.to_nat SIZE_IN_BYTES) 1 s)
    as (s' & Hrun & tx & -> & Htx & Hlk);
    [lia | unfold SIZE_IN_BYTES; lia | unfold SIZE_IN_BYTES; lia | |].
  - exists (tx_buf s). split; [destruct s; reflexivity|]. split; [exact Hlen|].
    intros j. destruct (decide _); [lia | reflexivity].
  - exists tx. auto.
Qed.

(** C2: the fill loop of main completes on the 64-byte transmit array; it
    leaves at every index [i] with [1 <= i < 64] the byte [i mod 256], and
    does not write index 0, which keeps the value it had before the loop;
    nothing but the transmit array changes. *)
Theorem prepare_tx_pattern (s : state) :
  length (tx_buf s) = Z.to_nat SIZE_IN_BYTES ->
  exists tx,
    main_prepare_tx s = Ret tt (set_tx_buf tx s) /\
    length tx = Z.to_nat SIZE_IN_BYTES /\
    (forall i, 1 <= i < 64 -> tx !! Z.to_nat i = Some (i mod 256)) /\
    tx !! 0%nat = tx_buf s !! 0%nat.
Proof.
  intros Hlen. destruct (main_prepare_tx_run s Hlen) as (tx & Hrun & Htx & Hlk).
  exists tx. repeat split; try assumption.
  - intros i Hi. rewrite Hlk. unfold SIZE_IN_BYTES.
    destruct (decide _); [|lia]. rewrite Z2Nat.id by lia. reflexivity.
  - rewrite Hlk. destruct (decide _); [lia | reflexivity].
Qed.

(** ** executed_api *)

(** C8: on every 8-bit input the increment is taken modulo 256: the result
    is [(d + 1) mod 256], that is [d + 1] below 255 and 0 at 255; in
    particular [executed_api 255] is 0, not 256. *)
Theorem executed_api_wraps (d : Z) :
  is_u8 d ->
  executed_api d = (d + 1) mod 256 /\
  executed_api d = (if d =? 255 then 0 else d + 1) /\
  executed_api 255 = 0.
Proof.
  unfold is_u8, executed_api, u8. intros Hd.
  split; [reflexivity|]. split; [|reflexivity].
  destruct (d =? 255) eqn:E.
  - apply Z.eqb_eq in E. subst d. reflexivity.
  - apply Z.eqb_neq in E. apply Z.mod_small. lia.
Qed.

(** ** The XIP steps *)

Lemma main_xip_exec_run (s : state) :
  main_xip_exec s =
  Ret tt (set_console
            (console s ++
             [ LF +:+ CR +:+ "Verify execution from memory in XIP Mode" +:+ LF +:+ CR;
               "--------------------------------------------" +:+ LF +:+ CR;
               xip_success_text;
               completed_text ])
            (set_hw (sdk_run (Cy_SMIF_SetMode CY_SMIF_MEMORY)
                       (sdk_run Cy_SMIF_CacheDisable
                          (sdk_run Cy_SMIF_CacheInvalidate
                             (sdk_run Cy_SMIF_DeviceTransfer_ClearMergeTimeout
                                (hw s))))) s)).
Proof.
  destruct s as [c tx rx d w].
  cbv [main_xip_exec mbind M_bind mret M_ret run printf
       set_console set_hw console tx_buf rx_buf dummyCycles hw].
  change (u16 (executed_api (u8 LOOP_VALUE)) =? u32 (LOOP_VALUE + 1)) with true.
  cbv iota. rewrite <- !app_assoc. reflexivity.
Qed.

(** C7: [executed_api] increments its argument (in [uint8_t] arithmetic),
    the call with the loop value 20 yields 21, which is [LOOP_VALUE + 1], and
    the XIP step of main therefore prints the success text and not the
    failure text, and completes. *)
Theorem xip_increment_verified (s : state) :
  (forall d, executed_api d = u8 (d + 1)) /\
  executed_api (u8 LOOP_VALUE) = 21 /\
  u32 (LOOP_VALUE + 1) = 21 /\
  exists out,
    main_xip_exec s =
      Ret tt (set_console (console s ++ out)
                (set_hw (sdk_run (Cy_SMIF_SetMode CY_SMIF_MEMORY)
                           (sdk_run Cy_SMIF_CacheDisable
                              (sdk_run Cy_SMIF_CacheInvalidate
                                 (sdk_run Cy_SMIF_DeviceTransfer_ClearMergeTimeout
                                    (hw s))))) s)) /\
    out = [ LF +:+ CR +:+ "Verify execution from memory in XIP Mode" +:+ LF +:+ CR;
            "--------------------------------------------" +:+ LF +:+ CR;
            xip_success_text;
            completed_text ] /\
    xip_fail_text ∉ out.
Proof.
  split; [reflexivity|]. split; [reflexivity|]. split; [reflexivity|].
  eexists. split; [|split]; [| reflexivity |].
  - apply main_xip_exec_run.
  - rewrite !not_elem_of_cons. repeat split; try discriminate.
    apply not_elem_of_nil.
Qed.

(** ** The dump routine *)

(** C10: print_array only reads: when it returns, the two arrays, and with
    them the buffer it was given, hold what they held before the call, and
    so do the configuration and the hardware; only the console has grown.
    (The message is passed by value and has no storage to change.) *)
Theorem print_array_reads_only message buf size (s s' : state) :
  print_array message buf size s = Ret tt s' ->
  deref buf s' = deref buf s /\ same_memory s s'.
Proof.
  intros Hrun. pose proof (print_array_same_memory _ _ _ _ _ Hrun) as H.
  split; [|exact H]. destruct H as (Ht & Hr & _).
  destruct buf; assumption.
Qed.

(** C6: for every buffer holding at least [size] bytes print_array
    completes; it prints the label with the byte count, then the first
    [size] bytes in order, each as [0x] and exactly two hexadecimal digits,
    with a line break after every 8th byte. *)
Theorem print_array_format message buf size (s : state) :
  0 <= size < 2 ^ 32 ->
  (Z.to_nat size <= length (deref buf s))%nat ->
  Forall is_u8 (deref buf s) ->
  print_array message buf size s =
  Ret tt (set_console
            (console s ++ dump_label message size
             ++ dump_spec 0 (take (Z.to_nat size) (deref buf s))) s).
Proof.
  intros Hsize Hlen Hbytes.
  rewrite print_array_run by assumption.
  rewrite dump_text_spec by (apply Forall_take, Hbytes).
  reflexivity.
Qed.

(** C5, amended: for every size [N] and buffer of at least [N] bytes the
    loop of print_array emits exactly [floor(N / 8)] line breaks, one after
    each complete group of 8 bytes; a final partial line is not closed.  The
    output of the loop is the texts of the first 8 bytes and a line break,
    those of the next 8 and a line break, and so on for [floor(N / 8)] groups,
    and then the texts of the fewer than 8 bytes that remain. *)
Theorem print_array_line_breaks message buf size (s : state) :
  0 <= size < 2 ^ 32 ->
  (Z.to_nat size <= length (deref buf s))%nat ->
  exists out,
    print_array message buf size s =
      Ret tt (set_console (console s ++ dump_label message size ++ out) s) /\
    out = dump_lines (Z.to_nat (size / 8)) (take (Z.to_nat size) (deref buf s)) /\
    (length (drop (8 * Z.to_nat (size / 8)) (take (Z.to_nat size) (deref buf s)))
     < 8)%nat /\
    Z.of_nat (line_breaks out) = size / 8.
Proof.
  intros Hsize Hlen.
  pose proof (Z.div_mod size 8 ltac:(lia)) as E.
  pose proof (Z.mod_pos_bound size 8 ltac:(lia)) as B.
  pose proof (Z.div_pos size 8 ltac:(lia) ltac:(lia)) as Q.
  eexists. split; [apply print_array_run; assumption|]. split; [|split].
  - apply dump_text_lines; [reflexivity|].
    rewrite length_take, Nat.min_l, !Z2Nat.id by lia. reflexivity.
  - rewrite length_drop, length_take, Nat.min_l by lia. lia.
  - rewrite line_breaks_dump_text by lia.
    rewrite length_take, Nat.min_l by lia.
    rewrite Z2Nat.id by lia.
    change (0 / 8) with 0. rewrite Z.add_0_l, Z.sub_0_r. reflexivity.
Qed.

(** ** Clearing the receive array *)

Lemma main_clear_rx_run (s : state) :
  length (rx_buf s) = Z.to_nat SIZE_IN_BYTES ->
  main_clear_rx s = Ret tt (set_rx_buf (replicate (Z.to_nat SIZE_IN_BYTES) 0) s).
Proof.
  intros Hlen. unfold main_clear_rx, memset. cbn [deref].
  rewrite overwrite_full by (rewrite length_replicate; congruence).
  reflexivity.
Qed.

(** C9: whenever control stands immediately before one of the three
    operations that fill the receive array (the read before the write, the
    read-back and the XIP copy, which open steps 9, 13 and 17), every byte of
    the 64-byte receive array is zero. *)
Theorem rx_buf_cleared_before_fill (k : nat) (s0 s : state) :
  wf s0 ->
  k ∈ [9; 13; 17]%nat ->
  upto k s0 = Ret tt s ->
  (exists fill,
     main_steps !! k = Some fill /\
     fill ∈ [main_read_before_write; main_read_back; main_xip_read]) /\
  length (rx_buf s) = 64%nat /\
  rx_buf s = replicate 64 0.
Proof.
  intros Hwf Hk Hrun.
  assert (exists k', k = S k' /\ main_steps !! k' = Some main_clear_rx) as (k' & -> & Hk').
  { rewrite !elem_of_cons in Hk. destruct Hk as [->|[->|[->|Hk]]].
    - exists 8%nat. split; reflexivity.
    - exists 12%nat. split; reflexivity.
    - exists 16%nat. split; reflexivity.
    - apply elem_of_nil in Hk. contradiction. }
  split.
  - rewrite !elem_of_cons in Hk. destruct Hk as [Hk|[Hk|[Hk|Hk]]];
      try (apply elem_of_nil in Hk; contradiction); rewrite Hk;
      eexists; (split; [reflexivity|]); rewrite !elem_of_cons; auto.
  - apply (upto_inv _ _ _ _ Hk') in Hrun as (s1 & Hpre & Hclear).
    pose proof (wf_upto _ _ _ Hwf Hpre) as ((_ & Hlen) & _).
    rewrite main_clear_rx_run in Hclear by exact Hlen.
    injection Hclear as <-. split; reflexivity.
Qed.

(** ** Failing calls *)

Lemma set_console_nil (s : state) : set_console (console s ++ []) s = s.
Proof. rewrite app_nil_r. destruct s; reflexivity. Qed.

(** The check that follows every fallible call. *)
Lemma check_fails (rc ok : Z) (diag : list string) (report : M unit) (s : state) :
  rc <> ok ->
  report s = Ret tt (set_console (console s ++ diag) s) ->
  when (negb (rc =? ok)) (report;; CY_ASSERT 0) s
  = Halt (set_console (console s ++ diag) s).
Proof.
  intros Hne Hreport. apply Z.eqb_neq in Hne. rewrite Hne. cbn [negb when].
  rewrite (bind_Ret _ _ _ _ _ Hreport). reflexivity.
Qed.

Lemma check_fails_silent (rc ok : Z) (s : state) :
  rc <> ok ->
  when (negb (rc =? ok)) (CY_ASSERT 0) s = Halt (set_console (console s ++ []) s).
Proof.
  intros Hne. apply Z.eqb_neq in Hne. rewrite Hne, set_console_nil. reflexivity.
Qed.

Lemma check_passes (rc ok : Z) (m : M unit) (s s' : state) :
  when (negb (rc =? ok)) (m;; CY_ASSERT 0) s = Ret tt s' -> rc = ok /\ s' = s.
Proof.
  destruct (rc =? ok) eqn:E; cbn [negb when].
  - intros [= <-]. apply Z.eqb_eq in E. auto.
  - rewrite bind_run. destruct (m s); discriminate.
Qed.

(** C3, amended: each of the seven fallible calls of main (board init, UART
    retarget init, SMIF init, memslot init, the read before the write, the
    write, the read-back) has its status checked: when control reaches the
    call and it returns another status than success, main is stopped in the
    assertion, in the state the call left, with nothing executed after the
    check.  Before stopping, main prints one diagnostic line for the SMIF
    init, the memslot init, the reads and the write; for the board init and
    the UART retarget init it prints nothing. *)
Theorem failed_call_halts k f ok diag (s0 s1 s2 : state) (rc : Z) :
  fallible k f ok diag ->
  upto k s0 = Ret tt s1 ->
  f s1 = Ret rc s2 ->
  rc <> ok ->
  main s0 = Halt (set_console (console s2 ++ diag) s2).
Proof.
  intros Hf Hpre Hcall Hne.
  destruct Hf.
  - eapply (main_halts_at 0); [reflexivity | exact Hpre |].
    unfold main_board_init. rewrite (bind_Ret _ _ _ _ _ Hcall).
    apply check_fails_silent, Hne.
  - eapply (main_halts_at 2); [reflexivity | exact Hpre |].
    unfold main_uart_init. rewrite (bind_Ret _ _ _ _ _ Hcall).
    apply check_fails_silent, Hne.
  - eapply (main_halts_at 4); [reflexivity | exact Hpre |].
    unfold main_smif_init. rewrite (bind_Ret _ _ _ _ _ Hcall).
    apply check_fails; [exact Hne | reflexivity].
  - eapply (main_halts_at 6); [reflexivity | exact Hpre |].
    unfold main_memslot_init. rewrite (bind_Ret _ _ _ _ _ Hcall).
    apply check_fails; [exact Hne | reflexivity].
  - eapply (main_halts_at 9); [reflexivity | exact Hpre |].
    unfold main_read_before_write.
    rewrite bind_run in Hcall. rewrite bind_run.
    unfold load_dummyCycles in Hcall |- * at 1.
    rewrite (bind_Ret _ _ _ _ _ Hcall).
    apply bind_Halt, check_fails; [exact Hne | reflexivity].
  - eapply (main_halts_at 11); [reflexivity | exact Hpre |].
    unfold main_write.
    rewrite bind_run in Hcall. rewrite bind_run.
    unfold load_dummyCycles in Hcall |- * at 1.
    rewrite (bind_Ret _ _ _ _ _ Hcall).
    apply bind_Halt, check_fails; [exact Hne | reflexivity].
  - eapply (main_halts_at 13); [reflexivity | exact Hpre |].
    unfold main_read_back.
    rewrite bind_run in Hcall. rewrite bind_run.
    unfold load_dummyCycles in Hcall |- * at 1.
    rewrite (bind_Ret _ _ _ _ _ Hcall).
    apply bind_Halt, check_fails; [exact Hne | reflexivity].
Qed.

Lemma main_xip_read_run (s : state) :
  length (rx_buf s) = Z.to_nat SIZE_IN_BYTES ->
  exists rx w,
    main_xip_read s =
      Ret tt (set_console
                (console s ++ dump_label "4. XIP READ " SIZE_IN_BYTES
                 ++ dump_text 0 rx)
                (set_rx_buf rx (set_hw w s))) /\
    length rx = Z.to_nat SIZE_IN_BYTES.
Proof.
  intros Hlen. unfold main_xip_read. rewrite bind_run. unfold memcpy_xip.
  destruct (xip_load _ _ _) as [bs w]. cbn [deref].
  unfold overwrite.
  destruct (decide _) as [Hfit|Hn].
  2:{ exfalso. apply Hn. rewrite length_fmap, length_take, Hlen. lia. }
  match goal with |- context [assign _ ?b _] => set (rx := b) end.
  assert (Hrx : length rx = Z.to_nat SIZE_IN_BYTES).
  { unfold rx. rewrite length_app, length_drop. lia. }
  exists rx, w. split; [|exact Hrx].
  rewrite print_array_run.
  - cbn [assign deref set_rx_buf set_hw set_console console tx_buf rx_buf dummyCycles hw].
    rewrite firstn_all2 by (rewrite Hrx; lia). reflexivity.
  - unfold SIZE_IN_BYTES. lia.
  - cbn [assign deref set_rx_buf rx_buf]. rewrite Hrx. lia.
Qed.

(** From the switch to memory-mapped mode on main runs into its final loop,
    the completion text being the last one printed. *)
Lemma xip_phase_run (s : state) :
  wf s ->
  exists s_end tail,
    from 15 s = Spin s_end /\
    console s_end = console s ++ tail /\
    last tail = Some completed_text.
Proof.
  intros ((_ & Hrx) & _).
  rewrite (from_step 15 main_xip_mode) by reflexivity.
  rewrite bind_run. unfold main_xip_mode at 1, run at 1.
  rewrite (from_step 16 main_clear_rx) by reflexivity.
  rewrite bind_run, main_clear_rx_run by exact Hrx.
  rewrite (from_step 17 main_xip_read) by reflexivity.
  rewrite bind_run.
  match goal with |- context [main_xip_read ?t] =>
    destruct (main_xip_read_run t) as (rx & w & -> & Hlen)
  end.
  { cbn [set_rx_buf rx_buf]. apply length_replicate. }
  rewrite (from_step 18 main_xip_exec) by reflexivity.
  rewrite bind_run, main_xip_exec_run.
  rewrite (from_step 19 main_idle) by reflexivity.
  rewrite bind_run. unfold main_idle at 1.
  eexists _, (dump_label "4. XIP READ " SIZE_IN_BYTES ++ dump_text 0 rx ++ _).
  split; [reflexivity|].
  cbn [set_console set_rx_buf set_hw console tx_buf rx_buf dummyCycles hw].
  split; [rewrite <- !app_assoc; reflexivity|].
  rewrite !last_app. reflexivity.
Qed.

(** ** The comparison *)

Lemma main_verify_match (s : state) :
  wf s -> tx_buf s = rx_buf s ->
  main_verify s =
  Ret tt (set_console (console s ++ [separator; success_text; separator]) s).
Proof.
  intros ((Htx & _) & _) Heq. unfold main_verify. rewrite bind_run.
  unfold memcmp. cbn [deref]. rewrite <- Heq.
  rewrite memcmp_bytes_eq by lia.
  change (negb (0 =? u32 0)) with false. cbv iota.
  repeat (rewrite bind_run; unfold printf at 1; cbv beta iota).
  unfold printf.
  rewrite ?set_console_twice, ?console_set_console, <- !app_assoc. reflexivity.
Qed.

Lemma main_verify_mismatch (s : state) :
  wf s -> tx_buf s <> rx_buf s ->
  main_verify s =
  Ret tt (set_console
            (console s ++ [wide_separator; mismatch_text; wide_separator]) s).
Proof.
  intros ((Htx & Hrx) & Hbt & Hbr) Hne. unfold main_verify. rewrite bind_run.
  unfold memcmp. cbn [deref].
  destruct (memcmp_bytes_neq (tx_buf s) (rx_buf s)) as (r & Hr & Hnz);
    [congruence | assumption | assumption | assumption |].
  rewrite Htx in Hr. rewrite Hr.
  apply not_eq_sym, Z.eqb_neq in Hnz. rewrite Hnz. cbn [negb].
  repeat (rewrite bind_run; unfold printf at 1; cbv beta iota).
  unfold printf.
  rewrite ?set_console_twice, ?console_set_console, <- !app_assoc. reflexivity.
Qed.

(** C4: when the transmit array and the read-back receive array differ in
    one of the 64 compared bytes, main prints the mismatch report and not
    the success text, is not stopped, and goes on through the XIP steps into
    its final loop; when the arrays agree it prints the success text
    instead. *)
Theorem mismatch_is_reported (s0 s : state) :
  wf s0 ->
  upto 14 s0 = Ret tt s ->
  (length (tx_buf s) = 64%nat /\ length (rx_buf s) = 64%nat) /\
  (tx_buf s <> rx_buf s ->
     main_verify s =
       Ret tt (set_console
                 (console s ++ [wide_separator; mismatch_text; wide_separator]) s) /\
     (success_text ∉ [wide_separator; mismatch_text; wide_separator]) /\
     exists s_end tail,
       main s0 = Spin s_end /\
       console s_end =
         console s ++ [wide_separator; mismatch_text; wide_separator] ++ tail /\
       last tail = Some completed_text) /\
  (tx_buf s = rx_buf s ->
     main_verify s =
       Ret tt (set_console (console s ++ [separator; success_text; separator]) s) /\
     (mismatch_text ∉ [separator; success_text; separator])).
Proof.
  intros Hwf0 Hpre. pose proof (wf_upto _ _ _ Hwf0 Hpre) as Hwf.
  split; [exact (proj1 Hwf)|].
  split.
  - intros Hne. pose proof (main_verify_mismatch s Hwf Hne) as Hv.
    split; [exact Hv|]. split.
    { rewrite !not_elem_of_cons. repeat split; try discriminate.
      apply not_elem_of_nil. }
    destruct (xip_phase_run
                (set_console
                   (console s ++ [wide_separator; mismatch_text; wide_separator]) s))
      as (s_end & tail & Hrun & Hc & Hlast); [exact Hwf|].
    exists s_end, tail. split; [|split; [|exact Hlast]].
    + rewrite (main_split 14), (bind_Ret _ _ _ _ _ Hpre).
      rewrite (from_step 14 main_verify) by reflexivity.
      rewrite (bind_Ret _ _ _ _ _ Hv). exact Hrun.
    + rewrite Hc, console_set_console, <- app_assoc. reflexivity.
  - intros Heq. split; [apply main_verify_match; assumption|].
    rewrite !not_elem_of_cons. repeat split; try discriminate.
    apply not_elem_of_nil.
Qed.

(** ** Write and read-back *)

Lemma main_write_inv (s s' : state) :
  main_write s = Ret tt s' ->
  exists w1,
    Cy_SMIF_HyperBus_Write TEST_SECTOR_ADDRESS 32
      (u16s_of_bytes (take 64 (tx_buf s))) (dummyCycles s) (hw s)
    = (CY_SMIF_SUCCESS, w1) /\
    same_memory (set_hw w1 s) s'.
Proof.
  intros H. unfold main_write in H.
  apply bind_Ret_inv in H as (d & s1 & H1 & H).
  unfold load_dummyCycles in H1. injection H1 as <- <-.
  apply bind_Ret_inv in H as (st & s2 & H2 & H).
  unfold HyperBus_Write in H2. cbn [deref] in H2.
  destruct (decide _) in H2; [|discriminate].
  change (2 * Z.to_nat 32)%nat with 64%nat in H2.
  destruct (Cy_SMIF_HyperBus_Write _ _ _ _ _) as [status w1] eqn:Hw.
  injection H2 as <- <-.
  apply bind_Ret_inv in H as ([] & s3 & H3 & H).
  apply check_passes in H3 as [-> ->].
  apply bind_Ret_inv in H as ([] & s4 & H4 & H).
  unfold printf in H4. injection H4 as <-.
  apply bind_Ret_inv in H as ([] & s5 & H5 & H).
  apply print_array_same_memory in H5.
  unfold printf in H. injection H as <-.
  exists w1. split; [reflexivity | exact H5].
Qed.

Lemma main_read_back_inv (s s' : state) :
  main_read_back s = Ret tt s' ->
  exists ws w2,
    Cy_SMIF_HyperBus_Read TEST_SECTOR_ADDRESS 32 (dummyCycles s) (hw s)
    = (CY_SMIF_SUCCESS, ws, w2) /\
    overwrite (rx_buf s) (bytes_of_u16s (take 32 ws)) = Some (rx_buf s') /\
    tx_buf s' = tx_buf s.
Proof.
  intros H. unfold main_read_back in H.
  apply bind_Ret_inv in H as (d & s1 & H1 & H).
  unfold load_dummyCycles in H1. injection H1 as <- <-.
  apply bind_Ret_inv in H as (st & s2 & H2 & H).
  unfold HyperBus_Read in H2. cbn [deref] in H2.
  destruct (Cy_SMIF_HyperBus_Read _ _ _ _) as [[status ws] w2] eqn:Hr.
  change (Z.to_nat 32) with 32%nat in H2.
  destruct (overwrite _ _) as [b|] eqn:Hov; [|discriminate].
  injection H2 as <- <-.
  apply bind_Ret_inv in H as ([] & s3 & H3 & H).
  apply check_passes in H3 as [-> ->].
  apply bind_Ret_inv in H as ([] & s4 & H4 & H).
  unfold printf in H4. injection H4 as <-.
  apply print_array_same_memory in H as (Ht & Hrx & _).
  exists ws, w2. split; [reflexivity|].
  cbn [assign set_rx_buf set_hw set_console tx_buf rx_buf] in Ht, Hrx.
  rewrite Ht, Hrx. split; [exact Hov | reflexivity].
Qed.

(** C1, amended: when the 32-transfer write at the test address and the
    32-transfer read-back at the same address complete with success, so that
    control reaches the comparison, and the read-back delivers the halfwords
    that this write stored, the receive array equals the transmit array in
    all 64 bytes, at every index 1..63 both hold the index itself, and the
    comparison takes the success branch.  Only this one write and this one
    read-back are constrained: nothing is assumed of the device at other
    addresses, lengths, dummy counts or hardware states.  Steps 11 to 13 of
    main make no other SDK call, so the read-back runs in the hardware state
    the write left. *)
Theorem write_read_back_round_trip (s0 s11 s : state) :
  wf s0 ->
  upto 11 s0 = Ret tt s11 ->
  read_back_faithful s11 ->
  upto 14 s0 = Ret tt s ->
  rx_buf s = tx_buf s /\
  length (tx_buf s) = 64%nat /\
  (forall i, 1 <= i < 64 ->
     tx_buf s !! Z.to_nat i = Some i /\ rx_buf s !! Z.to_nat i = Some i) /\
  main_verify s =
    Ret tt (set_console (console s ++ [separator; success_text; separator]) s).
Proof.
  intros Hwf0 H11 Hfaith Hrun.
  pose proof (wf_upto _ _ _ Hwf0 Hrun) as Hwf.
  apply (upto_inv 13 main_read_back) in Hrun as (s13 & Hrun & Hback); [|reflexivity].
  apply (upto_inv 12 main_clear_rx) in Hrun as (s12 & Hrun & Hclear); [|reflexivity].
  apply (upto_inv 11 main_write) in Hrun as (s11' & Hrun & Hwrite); [|reflexivity].
  rewrite H11 in Hrun. injection Hrun as <-.
  pose proof (wf_upto _ _ _ Hwf0 H11) as ((Hlen11 & Hrx11) & Hb11 & _).
  pose proof H11 as Hfill.
  apply (upto_inv 10 main_prepare_tx) in Hfill as (s10 & Hpre & Hfill); [|reflexivity].
  pose proof (wf_upto _ _ _ Hwf0 Hpre) as ((Hlen10 & _) & _).
  destruct (main_prepare_tx_run s10 Hlen10) as (tx & Hfill' & _ & Hpattern).
  rewrite Hfill' in Hfill. injection Hfill as <-.
  cbn [set_tx_buf tx_buf rx_buf] in Hlen11, Hrx11, Hb11.
  apply main_write_inv in Hwrite as (w1 & Hw & Ht12 & Hr12 & Hd12 & Hh12).
  cbn [set_tx_buf set_hw tx_buf rx_buf dummyCycles hw] in Hw, Ht12, Hr12, Hd12, Hh12.
  rewrite main_clear_rx_run in Hclear by (rewrite Hr12; exact Hrx11).
  injection Hclear as <-.
  apply main_read_back_inv in Hback as (ws & w2 & Hr & Hov & Ht).
  cbn [set_rx_buf tx_buf rx_buf dummyCycles hw] in Hr, Hov, Ht.
  rewrite Hd12, Hh12 in Hr. rewrite Ht12 in Ht.
  pose proof (Hfaith w1 ws w2 Hw Hr) as Hws.
  change (tx_buf (set_tx_buf tx s10)) with tx in Hws.
  rewrite (firstn_all2 tx) in Hws by (rewrite Hlen11; unfold SIZE_IN_BYTES; lia).
  assert (Heven : Nat.Even (length tx)) by (exists 32%nat; rewrite Hlen11; reflexivity).
  rewrite Hws, bytes_of_u16s_of_bytes in Hov by assumption.
  rewrite overwrite_full in Hov by (rewrite Hlen11; reflexivity).
  injection Hov as Hrx. rewrite <- Hrx, Ht.
  split; [reflexivity|]. split; [exact Hlen11|]. split.
  - intros i Hi. rewrite Hpattern. unfold SIZE_IN_BYTES.
    destruct (decide _); [|lia].
    rewrite Z2Nat.id, Z.mod_small by lia. auto.
  - apply main_verify_match; [exact Hwf|]. rewrite <- Hrx, Ht. reflexivity.
Qed.

(** A device that obeys the read-after-write law everywhere is faithful in
    the read-back of main. *)
Lemma read_after_write_faithful (s : state) :
  read_after_write -> length (tx_buf s) = 64%nat -> read_back_faithful s.
Proof.
  intros Hlaw Hlen w1 ws w2 Hw Hr.
  refine (Hlaw _ _ _ _ _ _ _ _ _ _ Hw Hr eq_refl).
  rewrite firstn_all2 by lia.
  pose proof (length_u16s_of_bytes (tx_buf s)) as E. rewrite Hlen in E.
  specialize (E ltac:(exists 32%nat; reflexivity)).
  change (Z.to_nat 32) with 32%nat. lia.
Qed.

End Proofs.

(** ** Whole runs: what stops main and what does not *)

Section Whole.

Context {World : Type} {sdk : Sdk World}.

Local Abbreviation state := (state World).
Local Abbreviation M := (M World).

Lemma length_bytes_of_u16s ws : length (bytes_of_u16s ws) = (2 * length ws)%nat.
Proof. induction ws as [|w ws IH]; cbn [bytes_of_u16s length]; lia. Qed.

Lemma print_array_total message buf :
  total (print_array message buf SIZE_IN_BYTES : M unit).
Proof.
  intros s Hs. eexists. apply print_array_run.
  - unfold SIZE_IN_BYTES. lia.
  - destruct (wf_deref buf s Hs) as [-> _]. lia.
Qed.

Lemma HyperBus_Read_completes addr p d (s : state) :
  wf s -> exists rc s2, HyperBus_Read addr 32 p d s = Ret rc s2 /\ wf s2.
Proof.
  intros Hs. pose proof (preserves_HyperBus_Read addr 32 p d s Hs) as Hp.
  unfold HyperBus_Read in *.
  destruct (Cy_SMIF_HyperBus_Read _ _ _ _) as [[rc ws] w].
  unfold overwrite in *. destruct (decide _) as [_|Hn].
  - eexists _, _. split; [reflexivity | exact Hp].
  - exfalso. apply Hn. rewrite length_bytes_of_u16s, length_take.
    destruct (wf_deref p s Hs) as [-> _]. unfold SIZE_IN_BYTES. lia.
Qed.

Lemma HyperBus_Write_completes addr p d (s : state) :
  wf s -> exists rc s2, HyperBus_Write addr 32 p d s = Ret rc s2 /\ wf s2.
Proof.
  intros Hs. pose proof (preserves_HyperBus_Write addr 32 p d s Hs) as Hp.
  unfold HyperBus_Write in *.
  destruct (decide _) as [_|Hn].
  - destruct (Cy_SMIF_HyperBus_Write _ _ _ _ _) as [rc w].
    eexists _, _. split; [reflexivity | exact Hp].
  - exfalso. apply Hn. destruct (wf_deref p s Hs) as [-> _].
    unfold SIZE_IN_BYTES. lia.
Qed.

(** The shape shared by the seven checked statements. *)
Lemma checked_shape (f : M Z) ok diag (report rest : M unit) :
  (forall s, wf s -> exists rc s2, f s = Ret rc s2 /\ wf s2) ->
  (forall s, report s = Ret tt (set_console (console s ++ diag) s)) ->
  total rest ->
  checked f ok diag
    (rc ← f; when (negb (rc =? ok)) (report;; CY_ASSERT 0);; rest).
Proof.
  intros Hf Hreport Hrest s Hs.
  destruct (Hf s Hs) as (rc & s2 & Hcall & Hs2).
  exists rc, s2. split; [exact Hcall|].
  rewrite (bind_Ret _ _ _ _ _ Hcall).
  destruct (decide (rc = ok)) as [->|Hne].
  - left. split; [reflexivity|]. rewrite bind_run, Z.eqb_refl. cbn [negb when].
    apply Hrest, Hs2.
  - right. split; [exact Hne|]. apply bind_Halt, check_fails; auto.
Qed.

Lemma checked_board_init : checked (call cybsp_init) CY_RSLT_SUCCESS [] main_board_init.
Proof.
  intros s Hs. unfold main_board_init.
  destruct (call cybsp_init s) as [rc s2| | | |] eqn:Hcall;
    try (unfold call in Hcall; destruct (cybsp_init (hw s)); discriminate).
  exists rc, s2. split; [reflexivity|].
  rewrite (bind_Ret _ _ _ _ _ Hcall).
  destruct (decide (rc = CY_RSLT_SUCCESS)) as [->|Hne].
  - left. split; [reflexivity|]. rewrite Z.eqb_refl. eexists. reflexivity.
  - right. split; [exact Hne|]. apply check_fails_silent, Hne.
Qed.

Lemma checked_uart_init :
  checked (call cy_retarget_io_init_fc) CY_RSLT_SUCCESS [] main_uart_init.
Proof.
  intros s Hs. unfold main_uart_init.
  destruct (call cy_retarget_io_init_fc s) as [rc s2| | | |] eqn:Hcall;
    try (unfold call in Hcall; destruct (cy_retarget_io_init_fc (hw s)); discriminate).
  exists rc, s2. split; [reflexivity|].
  rewrite (bind_Ret _ _ _ _ _ Hcall).
  destruct (decide (rc = CY_RSLT_SUCCESS)) as [->|Hne].
  - left. split; [reflexivity|]. rewrite Z.eqb_refl. eexists. reflexivity.
  - right. split; [exact Hne|]. apply check_fails_silent, Hne.
Qed.

Lemma call_completes {A} (f : World -> A * World) (s : state) :
  wf s -> exists a s2, call f s = Ret a s2 /\ wf s2.
Proof.
  intros Hs. unfold call. destruct (f (hw s)) as [a w].
  eexists _, _. split; [reflexivity | exact Hs].
Qed.

Lemma total_ret : total (mret tt : M unit).
Proof. intros s _. eexists. reflexivity. Qed.

Lemma bind_unit_r' (m : M unit) : total m -> total (m;; mret tt).
Proof. intros Hm s Hs. destruct (Hm s Hs) as [s' H]. exists s'. rewrite bind_unit_r. exact H. Qed.

Lemma checked_smif_init :
  checked (call (Cy_SMIF_Init TIMEOUT_MS)) CY_SMIF_SUCCESS [smif_init_fail_text]
    main_smif_init.
Proof.
  intros s Hs.
  destruct (checked_shape (call (Cy_SMIF_Init TIMEOUT_MS)) CY_SMIF_SUCCESS
              [smif_init_fail_text] (printf smif_init_fail_text) (mret tt)
              (call_completes _) (fun _ => eq_refl) total_ret s Hs)
    as (rc & s2 & Hcall & H).
  exists rc, s2. split; [exact Hcall|].
  unfold main_smif_init. rewrite (bind_Ret _ _ _ _ _ Hcall).
  rewrite (bind_Ret _ _ _ _ _ Hcall), bind_unit_r in H. exact H.
Qed.

Lemma checked_memslot_init :
  checked (call Cy_SMIF_Memslot_Init) CY_SMIF_SUCCESS [memslot_init_fail_text]
    main_memslot_init.
Proof.
  intros s Hs.
  destruct (checked_shape (call Cy_SMIF_Memslot_Init) CY_SMIF_SUCCESS
              [memslot_init_fail_text] (printf memslot_init_fail_text) (mret tt)
              (call_completes _) (fun _ => eq_refl) total_ret s Hs)
    as (rc & s2 & Hcall & H).
  exists rc, s2. split; [exact Hcall|].
  unfold main_memslot_init. rewrite (bind_Ret _ _ _ _ _ Hcall).
  rewrite (bind_Ret _ _ _ _ _ Hcall), bind_unit_r in H. exact H.
Qed.

Lemma total_bind (m k : M unit) :
  preserves wf m -> total m -> total k -> total (m;; k).
Proof.
  intros Hp Hm Hk s Hs. destruct (Hm s Hs) as [s1 H1].
  pose proof (Hp s Hs) as Hs1. rewrite H1 in Hs1.
  rewrite (bind_Ret _ _ _ _ _ H1). apply Hk, Hs1.
Qed.

Lemma total_printf text : total (printf text : M unit).
Proof. intros s _. eexists. reflexivity. Qed.

Lemma load_then_completes (g : Z -> M Z) (s : state) :
  (forall d, wf s -> exists rc s2, g d s = Ret rc s2 /\ wf s2) ->
  wf s -> exists rc s2, (load_dummyCycles ≫= g) s = Ret rc s2 /\ wf s2.
Proof. intros Hg Hs. rewrite bind_run. apply Hg, Hs. Qed.

Lemma checked_read_before_write :
  checked (load_dummyCycles ≫= HyperBus_Read TEST_SECTOR_ADDRESS 32 ptr_rx_buf)
    CY_SMIF_SUCCESS [read_before_write_fail_text] main_read_before_write.
Proof.
  intros s Hs.
  destruct (checked_shape
              (load_dummyCycles ≫= HyperBus_Read TEST_SECTOR_ADDRESS 32 ptr_rx_buf)
              CY_SMIF_SUCCESS [read_before_write_fail_text]
              (printf read_before_write_fail_text)
              (printf (CR +:+ LF +:+ "1. Reading Data before write - Success "
                       +:+ LF +:+ CR);;
               print_array "Received Data before write" ptr_rx_buf SIZE_IN_BYTES;;
               printf separator)
              (fun s Hs => load_then_completes _ s
                 (fun d => HyperBus_Read_completes _ _ d s) Hs)
              (fun _ => eq_refl)
              (total_bind _ _ (preserves_printf _) (total_printf _)
                 (total_bind _ _ (preserves_print_array _ _ _)
                    (print_array_total _ _) (total_printf _)))
              s Hs)
    as (rc & s2 & Hcall & H).
  exists rc, s2. split; [exact Hcall|]. exact H.
Qed.

Lemma checked_write :
  checked (load_dummyCycles ≫= HyperBus_Write TEST_SECTOR_ADDRESS 32 ptr_tx_buf)
    CY_SMIF_SUCCESS [write_fail_text] main_write.
Proof.
  intros s Hs.
  destruct (checked_shape
              (load_dummyCycles ≫= HyperBus_Write TEST_SECTOR_ADDRESS 32 ptr_tx_buf)
              CY_SMIF_SUCCESS [write_fail_text]
              (printf write_fail_text)
              (printf (CR +:+ LF +:+ "2. Writing data to memory - Success "
                       +:+ LF +:+ CR);;
               print_array "Written Data" ptr_tx_buf SIZE_IN_BYTES;;
               printf separator)
              (fun s Hs => load_then_completes _ s
                 (fun d => HyperBus_Write_completes _ _ d s) Hs)
              (fun _ => eq_refl)
              (total_bind _ _ (preserves_printf _) (total_printf _)
                 (total_bind _ _ (preserves_print_array _ _ _)
                    (print_array_total _ _) (total_printf _)))
              s Hs)
    as (rc & s2 & Hcall & H).
  exists rc, s2. split; [exact Hcall|]. exact H.
Qed.

Lemma checked_read_back :
  checked (load_dummyCycles ≫= HyperBus_Read TEST_SECTOR_ADDRESS 32 ptr_rx_buf)
    CY_SMIF_SUCCESS [read_back_fail_text] main_read_back.
Proof.
  intros s Hs.
  destruct (checked_shape
              (load_dummyCycles ≫= HyperBus_Read TEST_SECTOR_ADDRESS 32 ptr_rx_buf)
              CY_SMIF_SUCCESS [read_back_fail_text]
              (printf read_back_fail_text)
              (printf (CR +:+ LF +:+ "3. Reading back for verification - Success "
                       +:+ LF +:+ CR);;
               print_array "Received Data" ptr_rx_buf SIZE_IN_BYTES)
              (fun s Hs => load_then_completes _ s
                 (fun d => HyperBus_Read_completes _ _ d s) Hs)
              (fun _ => eq_refl)
              (total_bind _ _ (preserves_printf _) (total_printf _)
                 (print_array_total _ _))
              s Hs)
    as (rc & s2 & Hcall & H).
  exists rc, s2. split; [exact Hcall|]. exact H.
Qed.

Lemma total_main_verify : total (main_verify : M unit).
Proof.
  intros s Hs. destruct (decide (tx_buf s = rx_buf s)) as [Heq|Hne].
  - eexists. apply main_verify_match; assumption.
  - eexists. apply main_verify_mismatch; assumption.
Qed.

Lemma total_main_clear_rx : total (main_clear_rx : M unit).
Proof. intros s ((_ & Hrx) & _). eexists. apply main_clear_rx_run, Hrx. Qed.

Lemma total_main_prepare_tx : total (main_prepare_tx : M unit).
Proof.
  intros s ((Htx & _) & _).
  destruct (main_prepare_tx_run s Htx) as (tx & H & _). eauto.
Qed.

Lemma total_main_xip_read : total main_xip_read.
Proof.
  intros s ((_ & Hrx) & _).
  destruct (main_xip_read_run s Hrx) as (rx & w & H & _). eauto.
Qed.

Lemma total_main_xip_exec : total main_xip_exec.
Proof. intros s _. eexists. apply main_xip_exec_run. Qed.

Lemma reach_start (s0 : state) : wf s0 -> reach 0 s0.
Proof. intros H. exists s0. split; [reflexivity | exact H]. Qed.

Lemma advance_run k (m : M unit) (s0 s s' : state) :
  main_steps !! k = Some m ->
  upto k s0 = Ret tt s -> wf s -> m s = Ret tt s' -> reach (S k) s0.
Proof.
  intros Hk Hpre Hs Hrun. exists s'. split.
  - rewrite (upto_step _ _ _ Hk), (bind_Ret _ _ _ _ _ Hpre). exact Hrun.
  - pose proof preserves_main_steps as Hall.
    rewrite Forall_lookup in Hall. specialize (Hall k m Hk s Hs).
    rewrite Hrun in Hall. exact Hall.
Qed.

Lemma advance_total k (m : M unit) (s0 : state) :
  main_steps !! k = Some m -> total m -> reach k s0 -> reach (S k) s0.
Proof.
  intros Hk Hm (s & Hpre & Hs). destruct (Hm s Hs) as [s' Hrun].
  exact (advance_run k m s0 s s' Hk Hpre Hs Hrun).
Qed.

Lemma advance_checked k f ok diag (m : M unit) (s0 : state) :
  fallible k f ok diag -> main_steps !! k = Some m -> checked f ok diag m ->
  reach k s0 ->
  reach (S k) s0 \/ exists sh, main s0 = Halt sh /\ failed_call s0 sh.
Proof.
  intros Hf Hk Hm (s & Hpre & Hs).
  destruct (Hm s Hs) as (rc & s2 & Hcall & [[-> [s' Hrun]] | [Hne Hhalt]]).
  - left. exact (advance_run k m s0 s s' Hk Hpre Hs Hrun).
  - right. eexists. split.
    + apply (main_halts_at k m s0 s _ Hk Hpre Hhalt).
    + exists k, f, ok, diag, s, rc, s2. auto.
Qed.

(** Either a fallible call fails and stops main, or control reaches the
    final loop. *)
Lemma main_outcome (s0 : state) :
  wf s0 ->
  (exists sh, main s0 = Halt sh /\ failed_call s0 sh) \/ reach 19 s0.
Proof.
  intros Hwf. pose proof (reach_start s0 Hwf) as H.
  eapply (advance_checked 0 _ _ _ main_board_init) in H as [H|H];
    [| left; exact H | constructor | reflexivity | exact checked_board_init].
  apply (advance_total 1 main_gpio) in H;
    [| reflexivity | intros s _; eexists; reflexivity].
  eapply (advance_checked 2 _ _ _ main_uart_init) in H as [H|H];
    [| left; exact H | constructor | reflexivity | exact checked_uart_init].
  apply (advance_total 3 main_banner) in H;
    [| reflexivity | intros s _; eexists; reflexivity].
  eapply (advance_checked 4 _ _ _ main_smif_init) in H as [H|H];
    [| left; exact H | constructor | reflexivity | exact checked_smif_init].
  apply (advance_total 5 main_smif_enable) in H;
    [| reflexivity | intros s _; eexists; reflexivity].
  eapply (advance_checked 6 _ _ _ main_memslot_init) in H as [H|H];
    [| left; exact H | constructor | reflexivity | exact checked_memslot_init].
  apply (advance_total 7 main_normal_mode) in H;
    [| reflexivity | intros s _; eexists; reflexivity].
  apply (advance_total 8 main_clear_rx) in H;
    [| reflexivity | exact total_main_clear_rx].
  eapply (advance_checked 9 _ _ _ main_read_before_write) in H as [H|H];
    [| left; exact H | constructor | reflexivity | exact checked_read_before_write].
  apply (advance_total 10 main_prepare_tx) in H;
    [| reflexivity | exact total_main_prepare_tx].
  eapply (advance_checked 11 _ _ _ main_write) in H as [H|H];
    [| left; exact H | constructor | reflexivity | exact checked_write].
  apply (advance_total 12 main_clear_rx) in H;
    [| reflexivity | exact total_main_clear_rx].
  eapply (advance_checked 13 _ _ _ main_read_back) in H as [H|H];
    [| left; exact H | constructor | reflexivity | exact checked_read_back].
  apply (advance_total 14 main_verify) in H;
    [| reflexivity | exact total_main_verify].
  apply (advance_total 15 main_xip_mode) in H;
    [| reflexivity | intros s _; eexists; reflexivity].
  apply (advance_total 16 main_clear_rx) in H;
    [| reflexivity | exact total_main_clear_rx].
  apply (advance_total 17 main_xip_read) in H;
    [| reflexivity | exact total_main_xip_read].
  apply (advance_total 18 main_xip_exec) in H;
    [| reflexivity | exact total_main_xip_exec].
  right. exact H.
Qed.

Lemma reach_final_loop (s0 : state) :
  reach 19 s0 ->
  exists s_end,
    main s0 = Spin s_end /\ wf s_end /\ last (console s_end) = Some completed_text.
Proof.
  intros (s & Hpre & Hs). exists s. split; [|split; [exact Hs|]].
  - rewrite (main_split 19), (bind_Ret _ _ _ _ _ Hpre). reflexivity.
  - apply (upto_inv 18 main_xip_exec) in Hpre as (s18 & _ & Hrun); [|reflexivity].
    rewrite main_xip_exec_run in Hrun. injection Hrun as <-.
    cbn [console set_console].
    change [?a; ?b; ?c; ?d] with ([a; b; c] ++ [d]).
    rewrite app_assoc. apply last_snoc.
Qed.

Lemma main_keeps_wf (s0 : state) : wf s0 -> post wf (main s0).
Proof. apply (preserves_exec wf), preserves_main_steps. Qed.

(** X1: from a start state whose two arrays have their declared 64 bytes,
    main never returns, never accesses an array out of bounds and never runs
    a loop past its bound: it ends stopped in an assertion or in its final
    loop, and the arrays still have 64 bytes each. *)
Theorem main_stops_or_spins (s0 : state) :
  wf s0 ->
  (exists sh, main s0 = Halt sh /\ wf sh) \/
  (exists s_end, main s0 = Spin s_end /\ wf s_end).
Proof.
  intros Hwf. destruct (main_outcome s0 Hwf) as [(sh & Hh & _) | H].
  - left. exists sh. split; [exact Hh|].
    pose proof (main_keeps_wf s0 Hwf) as Hp. rewrite Hh in Hp. exact Hp.
  - right. destruct (reach_final_loop s0 H) as (s_end & Hs & Hw & _). eauto.
Qed.

(** X2: main is stopped only by a failed call: when main ends in an
    assertion, control had reached one of the seven fallible calls, that call
    returned another status than success, and main stopped in the state the
    call left, after that call's diagnostic.  In particular a mismatch
    between written and read data never stops main. *)
Theorem halt_only_on_failed_call (s0 sh : state) :
  wf s0 ->
  main s0 = Halt sh ->
  failed_call s0 sh.
Proof.
  intros Hwf Hh. destruct (main_outcome s0 Hwf) as [(sh' & Hh' & Hf) | H].
  - rewrite Hh in Hh'. injection Hh' as <-. exact Hf.
  - destruct (reach_final_loop s0 H) as (s_end & Hs & _). congruence.
Qed.


End Whole.

(** ** What main leaves alone *)

Section Stable.

Context {World : Type} {sdk : Sdk World}.

Local Abbreviation state := (state World).
Local Abbreviation M := (M World).

(** A property of the state that does not depend on the console, the
    hardware, the receive array or the configured dummy cycles. *)
Variable P : state -> Prop.
Hypothesis P_console : forall c s, P s -> P (set_console c s).
Hypothesis P_hw : forall w s, P s -> P (set_hw w s).
Hypothesis P_rx : forall b s, P s -> P (set_rx_buf b s).
Hypothesis P_dummyCycles : forall d s, P s -> P (set_dummyCycles d s).

Lemma stable_printf text : preserves P (printf text : M unit).
Proof. intros s Hs. apply P_console, Hs. Qed.

Lemma stable_run p : preserves P (run p : M unit).
Proof. intros s Hs. apply P_hw, Hs. Qed.

Lemma stable_call {A} (f : World -> A * World) : preserves P (call f).
Proof. intros s Hs. unfold call. destruct (f (hw s)). apply P_hw, Hs. Qed.

Lemma stable_CY_ASSERT x : preserves P (CY_ASSERT x : M unit).
Proof. intros s Hs. unfold CY_ASSERT. destruct (x =? 0); exact Hs. Qed.

Lemma stable_memset_rx c n : preserves P (memset ptr_rx_buf c n : M unit).
Proof.
  intros s Hs. unfold memset. destruct (overwrite _ _); simpl; [|exact I].
  apply P_rx, Hs.
Qed.

Lemma stable_memcmp p q n : preserves P (memcmp p q n : M Z).
Proof. intros s Hs. unfold memcmp. destruct (memcmp_bytes _ _ _); simpl; auto. Qed.

Lemma stable_memcpy_xip_rx off n : preserves P (memcpy_xip ptr_rx_buf off n).
Proof.
  intros s Hs. unfold memcpy_xip. destruct (xip_load _ _ _) as [bs w].
  destruct (overwrite _ _); simpl; [|exact I]. apply P_rx, P_hw, Hs.
Qed.

Lemma stable_HyperBus_Read_rx addr n d :
  preserves P (HyperBus_Read addr n ptr_rx_buf d).
Proof.
  intros s Hs. unfold HyperBus_Read.
  destruct (Cy_SMIF_HyperBus_Read _ _ _ _) as [[status ws] w].
  destruct (overwrite _ _); simpl; [|exact I]. apply P_rx, P_hw, Hs.
Qed.

Lemma stable_HyperBus_Write addr n p d : preserves P (HyperBus_Write addr n p d).
Proof.
  intros s Hs. unfold HyperBus_Write.
  destruct (decide _); simpl; [|exact I].
  destruct (Cy_SMIF_HyperBus_Write _ _ _ _ _) as [status w]. apply P_hw, Hs.
Qed.

Lemma stable_load_u8 p i : preserves P (load_u8 p i : M Z).
Proof. intros s Hs. unfold load_u8. destruct (_ !! _); simpl; auto. Qed.

Lemma stable_load_dummyCycles : preserves P (load_dummyCycles : M Z).
Proof. intros s Hs. exact Hs. Qed.

Lemma stable_store_dummyCycles d : preserves P (store_dummyCycles d : M unit).
Proof. intros s Hs. apply P_dummyCycles, Hs. Qed.

Lemma stable_main_idle : preserves P (main_idle : M unit).
Proof. intros s Hs. exact Hs. Qed.

Lemma stable_print_array message buf size :
  preserves P (print_array message buf size : M unit).
Proof.
  unfold print_array.
  repeat first
    [ apply stable_printf | apply stable_load_u8 | apply preserves_when
    | apply preserves_for_u32; intros ?
    | apply preserves_bind; [| intros ?] ].
Qed.

Ltac stable :=
  repeat first
    [ apply stable_printf | apply stable_run | apply stable_call
    | apply stable_CY_ASSERT | apply stable_memset_rx | apply stable_memcmp
    | apply stable_memcpy_xip_rx | apply stable_HyperBus_Read_rx
    | apply stable_HyperBus_Write | apply stable_print_array
    | apply stable_load_dummyCycles | apply stable_store_dummyCycles
    | apply stable_main_idle | apply preserves_ret
    | apply preserves_when
    | apply preserves_bind; [| intros ?]
    | match goal with
      | |- preserves _ (if ?c then _ else _) => destruct c
      end ].

(** Every step of main but the fill loop keeps such a property. *)
Lemma stable_before_fill : Forall (preserves P) (take 10 (main_steps : list (M unit))).
Proof.
  cbn [take main_steps].
  repeat (apply Forall_cons; split); try (apply Forall_nil; exact I).
  all: unfold main_board_init, main_gpio, main_uart_init, main_banner,
    main_smif_init, main_smif_enable, main_memslot_init, main_normal_mode,
    main_clear_rx, main_read_before_write;
    stable.
Qed.

Lemma stable_main_xip_exec : preserves P main_xip_exec.
Proof.
  intros s Hs. rewrite main_xip_exec_run. cbn [post].
  apply P_console, P_hw, Hs.
Qed.

Lemma stable_after_fill : Forall (preserves P) (drop 11 (main_steps : list (M unit))).
Proof.
  cbn [drop main_steps].
  repeat (apply Forall_cons; split); try (apply Forall_nil; exact I).
  all: try match goal with
           | |- preserves _ main_xip_exec => exact stable_main_xip_exec
           end.
  all: unfold main_clear_rx, main_write, main_read_back, main_verify,
    main_xip_mode, main_xip_read;
    stable.
Qed.

End Stable.

Section Transmit.

Context {World : Type} {sdk : Sdk World}.

Local Abbreviation state := (state World).
Local Abbreviation M := (M World).

Lemma exec_keeps (P : state -> Prop) (steps : list (M unit)) (s s' : state) :
  Forall (preserves P) steps -> P s -> exec steps s = Ret tt s' -> P s'.
Proof.
  intros Hall Hs Hrun. pose proof (preserves_exec P steps Hall s Hs) as H.
  rewrite Hrun in H. exact H.
Qed.

Lemma upto_from a k (s0 s : state) :
  (a <= k)%nat -> upto k s0 = Ret tt s ->
  exists sa, upto a s0 = Ret tt sa /\
             exec (take (k - a) (drop a main_steps)) sa = Ret tt s.
Proof.
  intros Hak Hrun. unfold upto in *.
  replace k with (a + (k - a))%nat in Hrun at 1 by lia.
  rewrite <- take_take_drop, exec_app in Hrun.
  apply bind_Ret_inv in Hrun as ([] & sa & Ha & Hrest). eauto.
Qed.

Lemma tx_buf_before_fill k (s0 s : state) :
  (k <= 10)%nat -> upto k s0 = Ret tt s -> tx_buf s = tx_buf s0.
Proof.
  intros Hk Hrun. unfold upto in Hrun.
  replace k with (k `min` 10)%nat in Hrun by lia. rewrite <- take_take in Hrun.
  apply (exec_keeps (fun t => tx_buf t = tx_buf s0) _ s0 s) in Hrun; auto.
  apply Forall_take, stable_before_fill; auto.
Qed.

Lemma tx_buf_after_fill k (s0 s11 s : state) :
  (11 <= k)%nat -> upto 11 s0 = Ret tt s11 -> upto k s0 = Ret tt s ->
  tx_buf s = tx_buf s11.
Proof.
  intros Hk H11 Hrun.
  apply (upto_from 11) in Hrun as (sa & Ha & Hrest); [|exact Hk].
  rewrite H11 in Ha. injection Ha as <-.
  apply (exec_keeps (fun t => tx_buf t = tx_buf s11) _ s11 s) in Hrest; auto.
  apply Forall_take, stable_after_fill; auto.
Qed.

(** The transmit array when control reaches the write. *)
Lemma tx_buf_at_write (s0 s11 : state) :
  wf s0 -> upto 11 s0 = Ret tt s11 ->
  length (tx_buf s11) = 64%nat /\
  tx_buf s11 !! 0%nat = tx_buf s0 !! 0%nat /\
  forall i, 1 <= i < 64 -> tx_buf s11 !! Z.to_nat i = Some i.
Proof.
  intros Hwf Hrun.
  apply (upto_inv 10 main_prepare_tx) in Hrun as (s10 & Hpre & Hfill); [|reflexivity].
  pose proof (wf_upto _ _ _ Hwf Hpre) as ((Hlen & _) & _).
  pose proof (tx_buf_before_fill 10 s0 s10 ltac:(lia) Hpre) as Htx.
  destruct (main_prepare_tx_run s10 Hlen) as (tx & Hfill' & Hl & Hpat).
  rewrite Hfill' in Hfill. injection Hfill as <-. cbn [set_tx_buf tx_buf].
  split; [exact Hl|]. split.
  - rewrite Hpat, Htx. destruct (decide _); [lia | reflexivity].
  - intros i Hi. rewrite Hpat. unfold SIZE_IN_BYTES.
    destruct (decide _); [|lia]. rewrite Z2Nat.id, Z.mod_small by lia. reflexivity.
Qed.

(** X4: main writes the transmit array in its fill loop only.  Wherever
    control stands, index 0 still holds the byte the array held when main
    started; up to the fill loop the whole array is as it started, and from
    the write on every index 1..63 holds the index itself. *)
Theorem tx_buf_written_only_by_fill k (s0 s : state) :
  wf s0 ->
  upto k s0 = Ret tt s ->
  tx_buf s !! 0%nat = tx_buf s0 !! 0%nat /\
  ((k <= 10)%nat -> tx_buf s = tx_buf s0) /\
  ((11 <= k)%nat -> forall i, 1 <= i < 64 -> tx_buf s !! Z.to_nat i = Some i).
Proof.
  intros Hwf Hrun.
  destruct (decide (k <= 10)%nat) as [Hk|Hk].
  - pose proof (tx_buf_before_fill k s0 s Hk Hrun) as Htx.
    split; [rewrite Htx; reflexivity|]. split; [auto | lia].
  - destruct (upto_from 11 k s0 s ltac:(lia) Hrun) as (s11 & H11 & _).
    pose proof (tx_buf_after_fill k s0 s11 s ltac:(lia) H11 Hrun) as Htx.
    destruct (tx_buf_at_write s0 s11 Hwf H11) as (_ & H0 & Hpat).
    rewrite Htx. split; [exact H0|]. split; [lia | auto].
Qed.

Lemma u16s_of_bytes_lookup bs (k : nat) lo hi :
  bs !! (2 * k)%nat = Some lo -> bs !! (2 * k + 1)%nat = Some hi ->
  u16s_of_bytes bs !! k = Some (Z.lor lo (Z.shiftl hi 8)).
Proof.
  revert bs. induction k as [|k IH]; intros bs Hlo Hhi.
  - destruct bs as [|b0 [|b1 bs]]; try discriminate.
    injection Hlo as ->. injection Hhi as ->. reflexivity.
  - destruct bs as [|b0 [|b1 bs]]; try discriminate.
    cbn [u16s_of_bytes]. apply IH.
    + replace (2 * S k)%nat with (S (S (2 * k))) in Hlo by lia. exact Hlo.
    + replace (2 * S k + 1)%nat with (S (S (2 * k + 1))) in Hhi by lia. exact Hhi.
Qed.

(** X5: what main hands to the driver for writing: 32 halfwords, the bytes
    of the transmit array in little-endian pairs.  Halfword [k] (1 <= k < 32)
    carries byte [2k] in its low half and [2k + 1] in its high half; halfword
    0 carries in its low half the byte the transmit array held at index 0
    when main started, which main never initialises, and 1 in its high
    half. *)
Theorem written_halfwords (s0 s : state) b0 :
  wf s0 ->
  upto 11 s0 = Ret tt s ->
  tx_buf s0 !! 0%nat = Some b0 ->
  exists ws,
    (load_dummyCycles ≫= HyperBus_Write TEST_SECTOR_ADDRESS 32 ptr_tx_buf) s =
      (let '(status, w) :=
         Cy_SMIF_HyperBus_Write TEST_SECTOR_ADDRESS 32 ws (dummyCycles s) (hw s) in
       Ret status (set_hw w s)) /\
    length ws = 32%nat /\
    ws !! 0%nat = Some (Z.lor b0 (Z.shiftl 1 8)) /\
    forall k, 1 <= k < 32 ->
      ws !! Z.to_nat k = Some (Z.lor (2 * k) (Z.shiftl (2 * k + 1) 8)).
Proof.
  intros Hwf Hrun Hb0.
  destruct (tx_buf_at_write s0 s Hwf Hrun) as (Hlen & H0 & Hpat).
  exists (u16s_of_bytes (tx_buf s)). split; [|split; [|split]].
  - rewrite bind_run. unfold load_dummyCycles, HyperBus_Write. cbn [deref].
    destruct (decide _) as [_|Hn]; [|exfalso; apply Hn; rewrite Hlen; lia].
    change (2 * Z.to_nat 32)%nat with 64%nat.
    rewrite firstn_all2 by lia. reflexivity.
  - pose proof (length_u16s_of_bytes (tx_buf s)) as E.
    rewrite Hlen in E. specialize (E ltac:(exists 32%nat; reflexivity)). lia.
  - apply (u16s_of_bytes_lookup _ 0).
    + change (tx_buf s !! 0%nat = Some b0). rewrite H0. exact Hb0.
    + apply (Hpat 1). lia.
  - intros k Hk. apply u16s_of_bytes_lookup.
    + replace (2 * Z.to_nat k)%nat with (Z.to_nat (2 * k)) by lia. apply Hpat. lia.
    + replace (2 * Z.to_nat k + 1)%nat with (Z.to_nat (2 * k + 1)) by lia.
      apply Hpat. lia.
Qed.

(** X6: a successful read before the write replaces the whole receive array
    by the little-endian bytes of the 32 halfwords the driver delivered, so
    that nothing of its former contents remains, and prints the success
    line, the label and exactly those 64 bytes, eight to a line, followed by
    the separator. *)
Theorem read_before_write_shows_device_data (s : state) ws w :
  wf s ->
  Cy_SMIF_HyperBus_Read TEST_SECTOR_ADDRESS 32 (dummyCycles s) (hw s)
  = (CY_SMIF_SUCCESS, ws, w) ->
  (32 <= length ws)%nat ->
  main_read_before_write s =
  Ret tt (set_console
            (console s
             ++ [CR +:+ LF +:+ "1. Reading Data before write - Success " +:+ LF +:+ CR]
             ++ dump_label "Received Data before write" 64
             ++ dump_spec 0 (bytes_of_u16s (take 32 ws))
             ++ [separator])
            (set_rx_buf (bytes_of_u16s (take 32 ws)) (set_hw w s))).
Proof.
  intros ((_ & Hrx) & _) Hread Hws.
  unfold main_read_before_write.
  rewrite bind_run. unfold load_dummyCycles at 1.
  rewrite bind_run. unfold HyperBus_Read at 1. rewrite Hread.
  change (Z.to_nat 32) with 32%nat. cbn [deref].
  assert (Hb : length (bytes_of_u16s (take 32 ws)) = 64%nat)
    by (rewrite length_bytes_of_u16s, length_take; lia).
  rewrite overwrite_full by (rewrite Hb, Hrx; reflexivity).
  rewrite bind_run, Z.eqb_refl. cbn [negb when mret M_ret].
  rewrite bind_run. unfold printf at 1.
  rewrite bind_run, print_array_run;
    [| unfold SIZE_IN_BYTES; lia
     | cbn [deref assign set_rx_buf set_console rx_buf]; rewrite Hb;
       unfold SIZE_IN_BYTES; lia ].
  unfold printf.
  cbn [deref assign set_rx_buf set_hw set_console console tx_buf rx_buf
       dummyCycles hw].
  rewrite firstn_all2 by (rewrite Hb; unfold SIZE_IN_BYTES; lia).
  rewrite dump_text_spec by apply bytes_of_u16s_u8.
  rewrite <- !app_assoc. reflexivity.
Qed.

(** X7: the XIP copy replaces the whole receive array by the 64 bytes loaded
    through the memory-mapped window and prints the label and exactly those
    bytes; the window is read once, in the hardware state the step found. *)
Theorem xip_read_shows_window_data (s : state) bs w :
  wf s ->
  xip_load TEST_SECTOR_ADDRESS SIZE_IN_BYTES (hw s) = (bs, w) ->
  (64 <= length bs)%nat ->
  main_xip_read s =
  Ret tt (set_console
            (console s ++ dump_label "4. XIP READ " 64
             ++ dump_spec 0 (u8 <$> take 64 bs))
            (set_rx_buf (u8 <$> take 64 bs) (set_hw w s))).
Proof.
  intros ((_ & Hrx) & _) Hload Hbs.
  unfold main_xip_read. rewrite bind_run. unfold memcpy_xip at 1. rewrite Hload.
  change (Z.to_nat SIZE_IN_BYTES) with 64%nat. cbn [deref].
  assert (Hb : length (u8 <$> take 64 bs) = 64%nat)
    by (rewrite length_fmap, length_take; lia).
  rewrite overwrite_full by (rewrite Hb, Hrx; reflexivity).
  rewrite print_array_run;
    [| unfold SIZE_IN_BYTES; lia
     | cbn [deref assign set_rx_buf rx_buf]; rewrite Hb; unfold SIZE_IN_BYTES; lia ].
  cbn [deref assign set_rx_buf set_hw set_console console tx_buf rx_buf
       dummyCycles hw].
  rewrite firstn_all2 by (rewrite Hb; unfold SIZE_IN_BYTES; lia).
  rewrite dump_text_spec
    by (apply Forall_fmap, Forall_true; intros x; apply is_u8_u8).
  reflexivity.
Qed.

End Transmit.



(** ** More on the dump routine and on executed_api *)

Lemma text_length_app o1 o2 :
  text_length (o1 ++ o2) = (text_length o1 + text_length o2)%nat.
Proof. apply sum_list_with_app. Qed.

(** Five characters a byte and two for every line break. *)
Lemma text_length_dump_spec k bs :
  0 <= k ->
  Z.of_nat (text_length (dump_spec k bs))
  = 5 * Z.of_nat (length bs) + 2 * ((k + Z.of_nat (length bs)) / 8 - k / 8).
Proof.
  intros Hk. revert k Hk.
  induction bs as [|b bs IH]; intros k Hk; cbn [dump_spec length].
  - replace (k + Z.of_nat 0) with k by lia. unfold text_length. simpl. lia.
  - change (?x :: ?l ++ ?r) with ([x] ++ l ++ r).
    rewrite !text_length_app, !Nat2Z.inj_add, IH by lia.
    replace (k + Z.of_nat (S (length bs))) with (k + 1 + Z.of_nat (length bs)) by lia.
    change (Z.of_nat (text_length ["0x" +:+ two_hex_digits b +:+ " "])) with 5.
    pose proof (Z.div_mod k 8 ltac:(lia)) as E1.
    pose proof (Z.mod_pos_bound k 8 ltac:(lia)) as B1.
    pose proof (Z.div_mod (k + 1) 8 ltac:(lia)) as E2.
    pose proof (Z.mod_pos_bound (k + 1) 8 ltac:(lia)) as B2.
    destruct ((k + 1) mod 8 =? 0) eqn:Hm.
    + apply Z.eqb_eq in Hm.
      change (Z.of_nat (text_length [CR +:+ LF])) with 2. lia.
    + apply Z.eqb_neq in Hm.
      change (Z.of_nat (text_length [])) with 0. lia.
Qed.

Section Dump.

Context {World : Type}.

Local Abbreviation state := (state World).
Local Abbreviation M := (M World).

(** A loop whose body completes up to [mid] and accesses outside an array
    there does so as a whole. *)
Lemma for_u32_fault (Inv : Z -> state -> Prop) (body : Z -> M unit) bound mid :
  bound < 2 ^ 32 -> mid < bound ->
  forall lo,
  (forall i t, lo <= i < mid -> Inv i t ->
     exists t', body i t = Ret tt t' /\ Inv (i + 1) t') ->
  (forall t, Inv mid t -> body mid t = Undef) ->
  forall fuel index s,
    0 <= lo <= index -> index <= mid ->
    (Z.to_nat (bound - index) <= fuel)%nat ->
    Inv index s ->
    for_u32 fuel index bound body s = Undef.
Proof.
  intros Hbound Hmid lo Hbody Hfault fuel.
  induction fuel as [|fuel IH]; intros index s Hlo Hle Hfuel Hinv; [lia|].
  cbn [for_u32]. destruct (index <? bound) eqn:Hlt; [|apply Z.ltb_ge in Hlt; lia].
  destruct (decide (index = mid)) as [->|Hne].
  - rewrite bind_run, (Hfault s Hinv). reflexivity.
  - destruct (Hbody index s ltac:(lia) Hinv) as (t' & Hrun & Hinv').
    rewrite (bind_Ret _ _ _ _ _ Hrun).
    assert (u32 (index + 1) = index + 1) as ->
      by (unfold u32; apply Z.mod_small; lia).
    apply IH; [lia | lia | lia | assumption].
Qed.

(** X8: print_array does not check [size] against the buffer: asked for more
    bytes than the buffer holds, it reads past the end of the array. *)
Theorem print_array_reads_past_short_buffer message buf size (s : state) :
  0 <= size < 2 ^ 32 ->
  (length (deref buf s) < Z.to_nat size)%nat ->
  print_array message buf size s = Undef.
Proof.
  intros Hsize Hlen. unfold print_array.
  rewrite bind_run. unfold printf at 1. rewrite bind_run. unfold printf at 1.
  match goal with |- context [for_u32 _ _ _ ?b] => set (body := b) end.
  apply (for_u32_fault (fun _ t => deref buf t = deref buf s) body size
           (Z.of_nat (length (deref buf s))) ltac:(lia) ltac:(lia) 0);
    [ | | lia | lia | lia | destruct buf; reflexivity ].
  - intros i t Hi Ht.
    destruct (lookup_lt_is_Some_2 (deref buf s) (Z.to_nat i) ltac:(lia)) as [b Hb].
    unfold body. rewrite bind_run. unfold load_u8. rewrite Ht, Hb.
    rewrite bind_run. unfold printf at 1. unfold when.
    destruct (0 =? _); eexists; (split; [reflexivity|]);
      destruct buf; exact Ht.
  - intros t Ht. unfold body. rewrite bind_run. unfold load_u8. rewrite Ht.
    rewrite Nat2Z.id, lookup_ge_None_2 by lia. reflexivity.
Qed.

(** X9: asked for no bytes, print_array prints the label and the rule and
    nothing else, never looks at the buffer, and completes on every buffer,
    the empty one included. *)
Theorem print_array_of_nothing message buf (s : state) :
  print_array message buf 0 s =
  Ret tt (set_console (console s ++ dump_label message 0) s).
Proof.
  rewrite print_array_run by (cbn; lia).
  cbn [Z.to_nat take dump_text]. rewrite app_nil_r. reflexivity.
Qed.

(** X10: the dump of [size] bytes takes, after the label, five characters a
    byte and two for each of the [floor(size / 8)] line breaks. *)
Theorem print_array_output_size message buf size (s : state) :
  0 <= size < 2 ^ 32 ->
  (Z.to_nat size <= length (deref buf s))%nat ->
  Forall is_u8 (deref buf s) ->
  exists out,
    print_array message buf size s =
      Ret tt (set_console (console s ++ dump_label message size ++ out) s) /\
    Z.of_nat (text_length out) = 5 * size + 2 * (size / 8).
Proof.
  intros Hsize Hlen Hbytes. eexists. split.
  - rewrite print_array_run by assumption.
    rewrite dump_text_spec by (apply Forall_take, Hbytes). reflexivity.
  - rewrite text_length_dump_spec by lia.
    rewrite length_take, Nat.min_l by lia.
    rewrite Z2Nat.id by lia.
    change (0 / 8) with 0. rewrite Z.add_0_l, Z.sub_0_r. reflexivity.
Qed.

End Dump.

(** X11: on bytes executed_api is a permutation without fixed point: its
    result is a byte again and never its argument, different arguments give
    different results, and decrementing (modulo 256) undoes it. *)
Theorem executed_api_permutes_bytes (d d' : Z) :
  is_u8 d -> is_u8 d' ->
  is_u8 (executed_api d) /\
  executed_api d <> d /\
  (executed_api d = executed_api d' -> d = d') /\
  u8 (executed_api d - 1) = d.
Proof.
  unfold is_u8, executed_api, u8. intros Hd Hd'.
  assert (E : forall x, 0 <= x < 2 ^ 8 ->
            (x + 1) mod 2 ^ 8 = if x =? 255 then 0 else x + 1).
  { intros x Hx. destruct (x =? 255) eqn:Ex.
    - apply Z.eqb_eq in Ex. subst x. reflexivity.
    - apply Z.eqb_neq in Ex. apply Z.mod_small. lia. }
  rewrite (E d Hd), (E d' Hd').
  destruct (Z.eqb_spec d 255) as [->|H1]; destruct (Z.eqb_spec d' 255) as [->|H2].
  all: repeat split; try lia; try reflexivity.
  all: replace (d + 1 - 1) with d by lia; apply Z.mod_small; lia.
Qed.

(** ** Runs on the test bench *)

Lemma bench_read_after_write : @read_after_write _ (Bench.sdk Bench.good).
Proof.
  intros addr n ws dummy w w1 status ws' w2 Hlen Hw Hr _.
  cbn in Hw, Hr. injection Hw as <-. injection Hr as _ <- _.
  cbn [Bench.ram]. unfold Bench.ram_read.
  rewrite <- Hlen, (take_ge ws) by lia.
  rewrite take_ge
    by (rewrite !length_fmap, length_seqZ; lia).
  apply list_eq. intros i.
  rewrite !list_lookup_fmap.
  destruct (decide (i < length ws)%nat) as [Hi|Hi].
  - rewrite lookup_seqZ_lt by lia. cbn [fmap option_fmap option_map].
    unfold Bench.ram_write. destruct (decide _) as [_|Hn]; [|lia].
    replace (Z.to_nat (addr + Z.of_nat i - addr)) with i by lia.
    destruct (lookup_lt_is_Some_2 ws i Hi) as [x Hx].
    rewrite Hx. f_equal. apply nth_lookup_Some, Hx.
  - rewrite lookup_seqZ_ge by lia. cbn [fmap option_fmap option_map].
    symmetry. apply lookup_ge_None. lia.
Qed.

Lemma bench_boot_wf : wf Bench.boot.
Proof.
  unfold wf, Bench.boot, Bench.start, Bench.stack_garbage. cbn [tx_buf rx_buf].
  repeat split; try reflexivity; apply Forall_replicate; unfold is_u8; lia.
Qed.

(** On the good bench control reaches the comparison with equal arrays and
    the comparison takes the success branch. *)
Lemma write_read_back_round_trip_witness :
  exists s,
    @upto _ (Bench.sdk Bench.good) 14 Bench.boot = Ret tt s /\
    rx_buf s = tx_buf s /\
    main_verify s =
      Ret tt (set_console (console s ++ [separator; success_text; separator]) s).
Proof.
  assert (H : returned (@upto _ (Bench.sdk Bench.good) 14 Bench.boot) = true)
    by (vm_compute; reflexivity).
  assert (H' : returned (@upto _ (Bench.sdk Bench.good) 11 Bench.boot) = true)
    by (vm_compute; reflexivity).
  destruct (@upto _ (Bench.sdk Bench.good) 14 Bench.boot) as [[] s| | | |] eqn:E;
    try discriminate H.
  destruct (@upto _ (Bench.sdk Bench.good) 11 Bench.boot) as [[] s11| | | |] eqn:E11;
    try discriminate H'.
  destruct (@write_read_back_round_trip _ (Bench.sdk Bench.good) Bench.boot s11 s
              bench_boot_wf E11
              (read_after_write_faithful s11 bench_read_after_write
                 (proj1 (proj1 (wf_upto 11 Bench.boot s11 bench_boot_wf E11))))
              E)
    as (Heq & _ & _ & Hverify).
  exists s. split; [reflexivity|]. split; [exact Heq | exact Hverify].
Defined.

(** C1, as stated, fails: on a device with a stuck data bit the write and
    the read-back complete with success and the RAM holds, at the read-back,
    the halfwords that were written, yet the arrays differ at the comparison
    and the mismatch report is printed. *)
Lemma stuck_bit_round_trip_fails :
  exists s,
    @upto _ (Bench.sdk Bench.stuck_bit) 14 Bench.boot = Ret tt s /\
    Bench.ram_read TEST_SECTOR_ADDRESS 32 (Bench.ram (hw s))
      = u16s_of_bytes (tx_buf s) /\
    bool_decide (rx_buf s = tx_buf s) = false /\
    main_verify s =
      Ret tt (set_console
                (console s ++ [wide_separator; mismatch_text; wide_separator]) s).
Proof.
  assert (H : match @upto _ (Bench.sdk Bench.stuck_bit) 14 Bench.boot with
              | Ret _ s =>
                  bool_decide
                    (Bench.ram_read TEST_SECTOR_ADDRESS 32 (Bench.ram (hw s))
                     = u16s_of_bytes (tx_buf s))
                  && negb (bool_decide (rx_buf s = tx_buf s))
              | _ => false
              end = true) by (vm_compute; reflexivity).
  destruct (@upto _ (Bench.sdk Bench.stuck_bit) 14 Bench.boot)
    as [[] s| | | |] eqn:E; try discriminate H.
  apply andb_true_iff in H as [Hram Hne].
  apply bool_decide_eq_true in Hram. apply negb_true_iff in Hne.
  exists s. split; [reflexivity|]. split; [exact Hram|]. split; [exact Hne|].
  apply main_verify_mismatch.
  - exact (@wf_upto _ (Bench.sdk Bench.stuck_bit) 14 Bench.boot s bench_boot_wf E).
  - apply bool_decide_eq_false in Hne. congruence.
Qed.

(** The fill loop on the array as main finds it on the bench. *)
Lemma prepare_tx_pattern_witness :
  exists tx,
    main_prepare_tx Bench.boot = Ret tt (set_tx_buf tx Bench.boot) /\
    length tx = Z.to_nat SIZE_IN_BYTES /\
    (forall i, 1 <= i < 64 -> tx !! Z.to_nat i = Some (i mod 256)) /\
    tx !! 0%nat = Some 0xEE.
Proof.
  exact (prepare_tx_pattern Bench.boot eq_refl).
Defined.

(** C3, as stated, fails: when the board init fails main is stopped with
    nothing printed at all. *)
Lemma board_init_failure_is_silent :
  halted (@main _ (Bench.sdk Bench.board_fails) Bench.boot) = true /\
  printed (@main _ (Bench.sdk Bench.board_fails) Bench.boot) = [].
Proof. split; vm_compute; reflexivity. Qed.

(** A failing write stops main right after its diagnostic line. *)
Lemma failed_call_halts_witness :
  halted (@main _ (Bench.sdk Bench.write_fails) Bench.boot) = true /\
  last (printed (@main _ (Bench.sdk Bench.write_fails) Bench.boot))
  = Some write_fail_text.
Proof.
  pose (f := load_dummyCycles
             ≫= @HyperBus_Write _ (Bench.sdk Bench.write_fails)
                  TEST_SECTOR_ADDRESS 32 ptr_tx_buf).
  assert (H : match @upto _ (Bench.sdk Bench.write_fails) 11 Bench.boot with
              | Ret _ s1 =>
                  match f s1 with
                  | Ret rc _ => negb (rc =? 0)
                  | _ => false
                  end
              | _ => false
              end = true) by (vm_compute; reflexivity).
  destruct (@upto _ (Bench.sdk Bench.write_fails) 11 Bench.boot)
    as [[] s1| | | |] eqn:E1; try discriminate H.
  destruct (f s1) as [rc s2| | | |] eqn:E2; try discriminate H.
  apply negb_true_iff, Z.eqb_neq in H.
  rewrite (@failed_call_halts _ (Bench.sdk Bench.write_fails) 11 f 0
             [write_fail_text] Bench.boot s1 s2 rc fallible_write E1 E2 H).
  split; [reflexivity|]. cbn [printed console set_console]. apply last_snoc.
Defined.

(** A device with a stuck data bit: the mismatch is reported and main goes
    on into its final loop. *)
Lemma mismatch_is_reported_witness :
  exists s,
    @upto _ (Bench.sdk Bench.stuck_bit) 14 Bench.boot = Ret tt s /\
    main_verify s =
      Ret tt (set_console
                (console s ++ [wide_separator; mismatch_text; wide_separator]) s) /\
    exists s_end tail,
      @main _ (Bench.sdk Bench.stuck_bit) Bench.boot = Spin s_end /\
      console s_end =
        console s ++ [wide_separator; mismatch_text; wide_separator] ++ tail /\
      last tail = Some completed_text.
Proof.
  assert (H : match @upto _ (Bench.sdk Bench.stuck_bit) 14 Bench.boot with
              | Ret _ s => bool_decide (tx_buf s <> rx_buf s)
              | _ => false
              end = true) by (vm_compute; reflexivity).
  destruct (@upto _ (Bench.sdk Bench.stuck_bit) 14 Bench.boot)
    as [[] s| | | |] eqn:E; try discriminate H.
  apply bool_decide_eq_true in H.
  destruct (@mismatch_is_reported _ (Bench.sdk Bench.stuck_bit) Bench.boot s
              bench_boot_wf E) as (_ & Hmis & _).
  destruct (Hmis H) as (Hv & _ & Hrest).
  exists s. split; [reflexivity|]. split; [exact Hv | exact Hrest].
Defined.

(** C5, as stated, fails: nine bytes give one line break in the loop, not
    the two of [ceil(9 / 8)]. *)
Lemma nine_bytes_one_line_break :
  print_array "" ptr_rx_buf 9 Bench.nine_bytes
  = Ret tt (set_console
              (dump_label "" 9 ++
               [ "0x00 "; "0x11 "; "0x22 "; "0x33 "; "0x44 "; "0x55 "; "0x66 ";
                 "0x77 "; CR +:+ LF; "0x88 " ]) Bench.nine_bytes) /\
  line_breaks [ "0x00 "; "0x11 "; "0x22 "; "0x33 "; "0x44 "; "0x55 "; "0x66 ";
                "0x77 "; CR +:+ LF; "0x88 " ] = 1%nat /\
  ceil_div8 9 = 2.
Proof. repeat split; vm_compute; reflexivity. Qed.

Lemma nine_bytes_fit : (Z.to_nat 9 <= length (deref ptr_rx_buf Bench.nine_bytes))%nat.
Proof. vm_compute. lia. Qed.

Lemma print_array_line_breaks_witness :
  exists out,
    print_array "Nine" ptr_rx_buf 9 Bench.nine_bytes =
      Ret tt (set_console
                (console Bench.nine_bytes ++ dump_label "Nine" 9 ++ out)
                Bench.nine_bytes) /\
    out = dump_lines (Z.to_nat (9 / 8))
            (take (Z.to_nat 9) (deref ptr_rx_buf Bench.nine_bytes)) /\
    (length (drop (8 * Z.to_nat (9 / 8))
               (take (Z.to_nat 9) (deref ptr_rx_buf Bench.nine_bytes))) < 8)%nat /\
    Z.of_nat (line_breaks out) = 9 / 8.
Proof.
  exact (print_array_line_breaks "Nine" ptr_rx_buf 9 Bench.nine_bytes
           ltac:(lia) nine_bytes_fit).
Defined.

Lemma nine_bytes_u8 : Forall is_u8 (deref ptr_rx_buf Bench.nine_bytes).
Proof.
  cbn [deref Bench.nine_bytes rx_buf].
  repeat (apply Forall_cons; split; [unfold is_u8; lia|]).
  apply Forall_nil. exact I.
Qed.

Lemma print_array_format_witness :
  print_array "Nine" ptr_rx_buf 9 Bench.nine_bytes =
  Ret tt (set_console
            (console Bench.nine_bytes ++ dump_label "Nine" 9
             ++ dump_spec 0 (take (Z.to_nat 9) (deref ptr_rx_buf Bench.nine_bytes)))
            Bench.nine_bytes).
Proof.
  exact (print_array_format "Nine" ptr_rx_buf 9 Bench.nine_bytes
           ltac:(lia) nine_bytes_fit nine_bytes_u8).
Defined.

Lemma executed_api_wraps_witness :
  executed_api 255 = (255 + 1) mod 256 /\
  executed_api 255 = (if 255 =? 255 then 0 else 255 + 1) /\
  executed_api 255 = 0.
Proof.
  exact (executed_api_wraps 255 ltac:(unfold is_u8; lia)).
Defined.

(** On the good bench the receive array is all zero right before the
    read-back. *)
Lemma rx_buf_cleared_before_fill_witness :
  exists s,
    @upto _ (Bench.sdk Bench.good) 13 Bench.boot = Ret tt s /\
    length (rx_buf s) = 64%nat /\
    rx_buf s = replicate 64 0.
Proof.
  assert (H : returned (@upto _ (Bench.sdk Bench.good) 13 Bench.boot) = true)
    by (vm_compute; reflexivity).
  destruct (@upto _ (Bench.sdk Bench.good) 13 Bench.boot) as [[] s| | | |] eqn:E;
    try discriminate H.
  exists s. split; [reflexivity|].
  apply (@rx_buf_cleared_before_fill _ (Bench.sdk Bench.good) 13 Bench.boot s
           bench_boot_wf ltac:(rewrite !elem_of_cons; auto) E).
Defined.

Lemma print_array_reads_only_witness :
  exists s',
    print_array "Nine" ptr_rx_buf 9 Bench.nine_bytes = Ret tt s' /\
    deref ptr_rx_buf s' = deref ptr_rx_buf Bench.nine_bytes /\
    same_memory Bench.nine_bytes s'.
Proof.
  assert (H : returned (print_array "Nine" ptr_rx_buf 9 Bench.nine_bytes) = true)
    by (vm_compute; reflexivity).
  destruct (print_array "Nine" ptr_rx_buf 9 Bench.nine_bytes) as [[] s'| | | |] eqn:E;
    try discriminate H.
  exists s'. split; [reflexivity|].
  exact (print_array_reads_only "Nine" ptr_rx_buf 9 Bench.nine_bytes s' E).
Defined.

(** ** Bench runs for the whole-program properties *)


Lemma main_stops_or_spins_witness :
  (exists sh, @main _ (Bench.sdk Bench.write_fails) Bench.boot = Halt sh /\ wf sh) \/
  (exists s_end, @main _ (Bench.sdk Bench.write_fails) Bench.boot = Spin s_end /\ wf s_end).
Proof.
  exact (@main_stops_or_spins _ (Bench.sdk Bench.write_fails) Bench.boot bench_boot_wf).
Defined.

Lemma halt_only_on_failed_call_witness :
  exists sh,
    @main _ (Bench.sdk Bench.write_fails) Bench.boot = Halt sh /\
    @failed_call _ (Bench.sdk Bench.write_fails) Bench.boot sh.
Proof.
  assert (H : halted (@main _ (Bench.sdk Bench.write_fails) Bench.boot) = true)
    by (vm_compute; reflexivity).
  destruct (@main _ (Bench.sdk Bench.write_fails) Bench.boot) as [|sh| | |] eqn:E;
    try discriminate H.
  exists sh. split; [reflexivity|].
  exact (@halt_only_on_failed_call _ (Bench.sdk Bench.write_fails) Bench.boot sh
           bench_boot_wf E).
Defined.


Lemma tx_buf_written_only_by_fill_witness :
  exists s,
    @upto _ (Bench.sdk Bench.good) 19 Bench.boot = Ret tt s /\
    tx_buf s !! 0%nat = Some 0xEE /\
    forall i, 1 <= i < 64 -> tx_buf s !! Z.to_nat i = Some i.
Proof.
  assert (H : returned (@upto _ (Bench.sdk Bench.good) 19 Bench.boot) = true)
    by (vm_compute; reflexivity).
  destruct (@upto _ (Bench.sdk Bench.good) 19 Bench.boot) as [[] s| | | |] eqn:E;
    try discriminate H.
  destruct (@tx_buf_written_only_by_fill _ (Bench.sdk Bench.good) 19 Bench.boot s
              bench_boot_wf E) as (H0 & _ & Hpat).
  exists s. split; [reflexivity|]. split; [exact H0|]. apply Hpat. lia.
Defined.

Lemma written_halfwords_witness :
  exists s ws,
    @upto _ (Bench.sdk Bench.good) 11 Bench.boot = Ret tt s /\
    length ws = 32%nat /\
    ws !! 0%nat = Some (Z.lor 0xEE (Z.shiftl 1 8)) /\
    forall k, 1 <= k < 32 ->
      ws !! Z.to_nat k = Some (Z.lor (2 * k) (Z.shiftl (2 * k + 1) 8)).
Proof.
  assert (H : returned (@upto _ (Bench.sdk Bench.good) 11 Bench.boot) = true)
    by (vm_compute; reflexivity).
  destruct (@upto _ (Bench.sdk Bench.good) 11 Bench.boot) as [[] s| | | |] eqn:E;
    try discriminate H.
  destruct (@written_halfwords _ (Bench.sdk Bench.good) Bench.boot s 0xEE
              bench_boot_wf E eq_refl) as (ws & _ & Hlen & H0 & Hk).
  exists s, ws. split; [reflexivity|]. split; [exact Hlen|]. split; [exact H0 | exact Hk].
Defined.

Lemma bench_first_read :
  @Cy_SMIF_HyperBus_Read _ (Bench.sdk Bench.good) TEST_SECTOR_ADDRESS 32
    (dummyCycles Bench.boot) (hw Bench.boot)
  = (@CY_SMIF_SUCCESS _ (Bench.sdk Bench.good), replicate 32 0xA5A5,
     Bench.mkWorld (fun _ => 0xA5A5) 1).
Proof. reflexivity. Qed.

Lemma read_before_write_shows_device_data_witness :
  @main_read_before_write _ (Bench.sdk Bench.good) Bench.boot =
  Ret tt (set_console
            (console Bench.boot
             ++ [CR +:+ LF +:+ "1. Reading Data before write - Success " +:+ LF +:+ CR]
             ++ dump_label "Received Data before write" 64
             ++ dump_spec 0 (bytes_of_u16s (take 32 (replicate 32 0xA5A5)))
             ++ [separator])
            (set_rx_buf (bytes_of_u16s (take 32 (replicate 32 0xA5A5)))
               (set_hw (Bench.mkWorld (fun _ => 0xA5A5) 1) Bench.boot))).
Proof.
  exact (@read_before_write_shows_device_data _ (Bench.sdk Bench.good) Bench.boot
           (replicate 32 0xA5A5) (Bench.mkWorld (fun _ => 0xA5A5) 1)
           bench_boot_wf bench_first_read ltac:(vm_compute; lia)).
Defined.

Lemma bench_xip_load :
  @xip_load _ (Bench.sdk Bench.good) TEST_SECTOR_ADDRESS SIZE_IN_BYTES (hw Bench.boot)
  = (replicate 64 0xA5, hw Bench.boot).
Proof. reflexivity. Qed.

Lemma xip_read_shows_window_data_witness :
  @main_xip_read _ (Bench.sdk Bench.good) Bench.boot =
  Ret tt (set_console
            (console Bench.boot ++ dump_label "4. XIP READ " 64
             ++ dump_spec 0 (u8 <$> take 64 (replicate 64 0xA5)))
            (set_rx_buf (u8 <$> take 64 (replicate 64 0xA5))
               (set_hw (hw Bench.boot) Bench.boot))).
Proof.
  exact (@xip_read_shows_window_data _ (Bench.sdk Bench.good) Bench.boot
           (replicate 64 0xA5) (hw Bench.boot)
           bench_boot_wf bench_xip_load ltac:(vm_compute; lia)).
Defined.

Lemma print_array_reads_past_short_buffer_witness :
  print_array "Ten" ptr_rx_buf 10 Bench.nine_bytes = Undef.
Proof.
  exact (print_array_reads_past_short_buffer "Ten" ptr_rx_buf 10 Bench.nine_bytes
           ltac:(lia) ltac:(vm_compute; lia)).
Defined.

Lemma print_array_output_size_witness :
  exists out,
    print_array "Nine" ptr_rx_buf 9 Bench.nine_bytes =
      Ret tt (set_console
                (console Bench.nine_bytes ++ dump_label "Nine" 9 ++ out)
                Bench.nine_bytes) /\
    Z.of_nat (text_length out) = 5 * 9 + 2 * (9 / 8).
Proof.
  exact (print_array_output_size "Nine" ptr_rx_buf 9 Bench.nine_bytes
           ltac:(lia) nine_bytes_fit nine_bytes_u8).
Defined.

Lemma executed_api_permutes_bytes_witness :
  is_u8 (executed_api 255) /\
  executed_api 255 <> 255 /\
  (executed_api 255 = executed_api 0 -> 255 = 0) /\
  u8 (executed_api 255 - 1) = 255.
Proof.
  exact (executed_api_permutes_bytes 255 0
           ltac:(unfold is_u8; lia) ltac:(unfold is_u8; lia)).
Defined.
